(** * Vector index store and answering orchestrator

    A shallow embedding of [app/services/vector_store.py],
    [app/services/embeddings.py], [app/services/llm_service.py],
    [app/services/pdf_processor.py] and [app/api/routes.py].

    Python objects become records, methods become functions in a small
    state/exception/log monad, and the external collaborators
    (sentence-transformers, FAISS search, the LLM back ends, [uuid.uuid4],
    pdfplumber, the text splitter) are explicit arguments, so that every
    behaviour they may show (including raising) is covered by the
    theorems. *)

From Stdlib Require Import ZArith Lia.
From stdpp Require Import base decidable option list strings sorting pretty.

Local Open Scope string_scope.
Local Open Scope Z_scope.
Local Open Scope list_scope.

(** ** Python exceptions and results *)

Module Py.

(** A raised exception: its class and [str(e)]. *)
Record Exception := mkExc { exc_class : string; exc_msg : string }.

Definition RuntimeError (msg : string) : Exception := mkExc "RuntimeError" msg.
Definition ValueError (msg : string) : Exception := mkExc "ValueError" msg.
Definition IndexError (msg : string) : Exception := mkExc "IndexError" msg.
Definition AssertionError : Exception := mkExc "AssertionError" "".

(** What evaluating an expression yields: a value, or a raised exception. *)
Inductive Exc (A : Type) : Type :=
| Ok (a : A)
| Raise (e : Exception).
Global Arguments Ok {A} a.
Global Arguments Raise {A} e.

(** [str(x)] inside an f-string, for an optional exception
    ([None] prints as "None"). *)
Definition str_exc (e : option Exception) : string :=
  match e with
  | Some e => exc_msg e
  | None => "None"
  end.

End Py.
Import Py.

(** ** Data model *)

(** [chunk.metadata]: a dict read only through [.get("source")] and
    [.get("page")]; an absent key is [None]. *)
Record Metadata := mkMeta {
  source : option string;
  page : option Z;
  chunk_index : option Z
}.

(** [DocumentChunk] of [pdf_processor.py]. *)
Record DocumentChunk := mkChunk {
  text : string;
  metadata : Metadata
}.

(** One entry of [self._documents]: [{"id", "text", "metadata"}]. *)
Record Doc := mkDoc {
  doc_id : string;
  doc_text : string;
  doc_metadata : Metadata
}.

Global Instance Metadata_eq_dec : EqDecision Metadata.
Proof. solve_decision. Defined.
Global Instance DocumentChunk_eq_dec : EqDecision DocumentChunk.
Proof. solve_decision. Defined.
Global Instance Doc_eq_dec : EqDecision Doc.
Proof. solve_decision. Defined.

(** [settings] of [app/config.py], the two fields the store reads. *)
Record Settings := mkSettings {
  chroma_collection_name : string;
  top_k_results : Z
}.

Definition default_settings : Settings :=
  mkSettings "tractian_documents" 3.

(** ** The vector index store ([vector_store.py]) *)

Section VectorStore.

(** [np.float32]. The store never computes on components itself: it
    only moves rows around, so the component type stays abstract. *)
Context {F : Type}.

(** What [faiss.normalize_L2] does to one row. *)
Variable normalize_row : list F -> list F.

(** A two-dimensional [np.ndarray]: [shape[1]] and the rows. *)
Record ndarray := mkArray {
  shape1 : nat;
  rows : list (list F)
}.

(** [np.array(rows, dtype=np.float32)] followed by the read of
    [shape[1]]. Ragged rows raise [ValueError]; an empty list gives a
    one-dimensional array, on which [shape[1]] raises [IndexError]. Both
    happen before any attribute of the store is assigned. *)
Definition np_array (l : list (list F)) : Exc ndarray :=
  match l with
  | [] => Raise (IndexError "tuple index out of range")
  | r :: rs =>
      if forallb (fun r' => Nat.eqb (length r') (length r)) rs
      then Ok (mkArray (length r) l)
      else Raise (ValueError "inhomogeneous shape")
  end.

(** [faiss.normalize_L2(x)]: in place, row by row; the shape stays. *)
Definition normalize_L2 (x : ndarray) : ndarray :=
  mkArray (shape1 x) (normalize_row <$> rows x).

(** [faiss.IndexFlatIP]: the dimension [d] and the stored vectors, in
    insertion order; position [i] of [xb] is FAISS label [i]. *)
Record IndexFlatIP := mkIndex {
  d : nat;
  xb : list (list F)
}.

Definition ntotal (idx : IndexFlatIP) : nat := length (xb idx).

Definition IndexFlatIP_new (dimension : nat) : IndexFlatIP :=
  mkIndex dimension [].

(** [index.add(x)]: the Python wrapper asserts [x.shape[1] == self.d],
    then the rows are appended. *)
Definition IndexFlatIP_add (idx : IndexFlatIP) (x : ndarray) : Exc IndexFlatIP :=
  if Nat.eqb (shape1 x) (d idx)
  then Ok (mkIndex (d idx) (xb idx ++ rows x))
  else Raise AssertionError.

(** [index.search(x, k)] seen as [zip(distances[0], indices[0])]: the
    nearest-neighbour search of FAISS, an external collaborator. It may
    raise (wrong dimension, [k <= 0]). *)
Variable index_search : IndexFlatIP -> ndarray -> Z -> Exc (list (F * Z)).

Variable settings : Settings.

(** [EmbeddingService] of [embeddings.py]: a wrapper of the
    sentence-transformers model, whose [encode] may raise (also while the
    model is loaded lazily). *)
Record EmbeddingService := mkEmbeddingService {
  encode : list string -> Exc (list (list F))
}.

(** [embed_texts]: [model.encode(texts, ...).tolist()]. *)
Definition embed_texts (svc : EmbeddingService) (texts : list string)
  : Exc (list (list F)) :=
  encode svc texts.

(** [embed_query]: [model.encode([query], ...)[0].tolist()]. *)
Definition embed_query (svc : EmbeddingService) (query : string)
  : Exc (list F) :=
  match encode svc [query] with
  | Ok (v :: _) => Ok v
  | Ok [] => Raise (IndexError "index 0 is out of bounds")
  | Raise e => Raise e
  end.

(** The store object together with its two files: [_index] and
    [_documents] are the attributes, [index_file] and [meta_file] hold
    the contents of [faiss.index] and [metadata.json] when they exist. *)
Record VectorStoreService := mkStore {
  _index : option IndexFlatIP;
  _documents : list Doc;
  index_file : option IndexFlatIP;
  meta_file : option (list Doc)
}.

(** Calls made to the embedding service, in order. *)
Inductive Call :=
| CallEmbedTexts (texts : list string)
| CallEmbedQuery (query : string).

(** A method body: it reads and assigns the store, returns or raises, and
    leaves a log of the embedding calls it made. Assignments made before a
    [raise] stay, as in Python. *)
Definition M (A : Type) : Type :=
  VectorStoreService -> Exc A * VectorStoreService * list Call.

Definition ret {A} (a : A) : M A := fun s => (Ok a, s, []).

Definition bind {A B} (m : M A) (k : A -> M B) : M B :=
  fun s =>
    match m s with
    | (Ok a, s1, l1) =>
        match k a s1 with
        | (r, s2, l2) => (r, s2, l1 ++ l2)
        end
    | (Raise e, s1, l1) => (Raise e, s1, l1)
    end.

Definition get : M VectorStoreService := fun s => (Ok s, s, []).
Definition put (s : VectorStoreService) : M unit := fun _ => (Ok tt, s, []).
Definition lift {A} (r : Exc A) : M A := fun s => (r, s, []).
Definition call {A} (c : Call) (r : Exc A) : M A := fun s => (r, s, [c]).

#[local] Instance M_ret : MRet M := @ret.
#[local] Instance M_bind : MBind M := fun A B k m => bind m k.

Definition set_index (i : option IndexFlatIP) : M unit :=
  fun s => (Ok tt, mkStore i (_documents s) (index_file s) (meta_file s), []).
Definition set_documents (docs : list Doc) : M unit :=
  fun s => (Ok tt, mkStore (_index s) docs (index_file s) (meta_file s), []).

(** [path.unlink()] on each of the two files that exists. *)
Definition unlink_files : M unit :=
  fun s => (Ok tt, mkStore (_index s) (_documents s) None None, []).

(** [_load]: both files must exist to be read; a file that cannot be
    read leaves the attributes as a missing file does. *)
Definition _load : M unit :=
  fun s =>
    match index_file s, meta_file s with
    | Some i, Some ds => (Ok tt, mkStore (Some i) ds (index_file s) (meta_file s), [])
    | _, _ => (Ok tt, mkStore None [] (index_file s) (meta_file s), [])
    end.

(** [_save]: writes both files when there is an index. *)
Definition _save : M unit :=
  fun s =>
    match _index s with
    | Some i => (Ok tt, mkStore (_index s) (_documents s) (Some i) (Some (_documents s)), [])
    | None => (Ok tt, s, [])
    end.

(** [_ensure_index]: creates the index when there is none. *)
Definition _ensure_index (dimension : nat) : M unit :=
  s ← get;
  match _index s with
  | None => set_index (Some (IndexFlatIP_new dimension))
  | Some _ => ret tt
  end.

(** [self._index.add(x)]. *)
Definition index_add (x : ndarray) : M unit :=
  s ← get;
  match _index s with
  | None => lift (Raise (mkExc "AttributeError" "'NoneType' object has no attribute 'add'"))
  | Some idx =>
      idx' ← lift (IndexFlatIP_add idx x);
      set_index (Some idx')
  end.

(** The loop [for text, meta in zip(texts, metadatas)] of [add_chunks]:
    one [append] per pair, [uuid4 i] being the [i]-th identifier drawn. *)
Fixpoint store_metadata (uuid4 : nat -> string) (i : nat)
    (pairs : list (string * Metadata)) : M unit :=
  match pairs with
  | [] => ret tt
  | (text, meta) :: rest =>
      s ← get;
      set_documents (_documents s ++ [mkDoc (uuid4 i) text meta]);;
      store_metadata uuid4 (S i) rest
  end.

(** [add_chunks]. [uuid4] gives the identifiers that [uuid.uuid4()]
    draws during the call. *)
Definition add_chunks (svc : EmbeddingService) (uuid4 : nat -> string)
    (chunks : list DocumentChunk) : M nat :=
  if bool_decide (chunks = []) then ret 0%nat
  else
    let texts := text <$> chunks in
    let metadatas := metadata <$> chunks in
    embeddings ← call (CallEmbedTexts texts) (embed_texts svc texts);
    embeddings_np ← lift (np_array embeddings);
    let embeddings_np := normalize_L2 embeddings_np in
    _ensure_index (shape1 embeddings_np);;
    index_add embeddings_np;;
    store_metadata uuid4 0 (zip texts metadatas);;
    _save;;
    ret (length chunks).

(** One entry of the list [query] returns:
    [{"text", "metadata", "distance"}]. *)
Record QueryResult := mkResult {
  res_text : string;
  res_metadata : Metadata;
  distance : F
}.

(** The loop [for dist, idx in zip(distances[0], indices[0])] of [query]:
    a label outside [0, len(self._documents)) is skipped. *)
Fixpoint format_results (docs : list Doc) (hits : list (F * Z))
  : list QueryResult :=
  match hits with
  | [] => []
  | (dist, idx) :: rest =>
      if (idx <? 0) || (Z.of_nat (length docs) <=? idx)
      then format_results docs rest
      else
        match docs !! Z.to_nat idx with
        | Some doc =>
            mkResult (doc_text doc) (doc_metadata doc) dist
              :: format_results docs rest
        | None => format_results docs rest
        end
  end.

(** [top_k or settings.top_k_results]: [None] and [0] are falsy. *)
Definition top_k_or_default (top_k : option Z) : Z :=
  match top_k with
  | Some k => if k =? 0 then top_k_results settings else k
  | None => top_k_results settings
  end.

(** [query]. *)
Definition query (svc : EmbeddingService) (question : string)
    (top_k : option Z) : M (list QueryResult) :=
  let top_k := top_k_or_default top_k in
  s ← get;
  match _index s with
  | None => ret []
  | Some index =>
      if Nat.eqb (ntotal index) 0 then ret []
      else
        let top_k := Z.min top_k (Z.of_nat (ntotal index)) in
        query_embedding ←
          call (CallEmbedQuery question) (embed_query svc question);
        query_np ← lift (np_array [query_embedding]);
        let query_np := normalize_L2 query_np in
        hits ← lift (index_search index query_np top_k);
        ret (format_results (_documents s) hits)
  end.

(** Python's order on [str], by code point; on UTF-8 bytes that is the
    lexicographic order of the bytes. *)
Definition str_le (a b : string) : Prop := String.leb a b = true.

#[local] Instance str_le_dec a b : Decision (str_le a b).
Proof. unfold str_le. apply _. Defined.

(** [if s] on the value of [.get("source")]: [None] and the empty string
    are falsy. *)
Definition truthy_source (o : option string) : option string :=
  match o with
  | Some s => if bool_decide (s = "") then None else Some s
  | None => None
  end.

(** [list_documents]. The set comprehension keeps one copy of each
    source; [sorted] makes the result independent of the order in which
    the set is iterated. *)
Definition list_documents (s : VectorStoreService) : list string :=
  if bool_decide (_documents s = []) then []
  else
    let sources := remove_dups ((fun doc => source (doc_metadata doc)) <$> _documents s) in
    merge_sort str_le (omap truthy_source sources).

(** The dict [get_collection_stats] returns. *)
Record Stats := mkStats {
  collection_name : string;
  total_documents : nat;
  total_chunks : nat
}.

(** [get_collection_stats]. *)
Definition get_collection_stats (s : VectorStoreService) : Stats :=
  let count := match _index s with Some index => ntotal index | None => 0%nat end in
  mkStats (chroma_collection_name settings) (length (list_documents s)) count.

(** [reset_collection]: both attributes dropped, both files unlinked
    when they exist. *)
Definition reset_collection : M unit :=
  set_index None;;
  set_documents [];;
  unlink_files.

(** The first loop of [delete_document]: the documents whose
    [metadata.get("source")] differs from [source_name] are kept. *)
Fixpoint keep_other_sources (source_name : string) (docs : list Doc)
  : list Doc :=
  match docs with
  | [] => []
  | doc :: rest =>
      if bool_decide (source (doc_metadata doc) ≠ Some source_name)
      then doc :: keep_other_sources source_name rest
      else keep_other_sources source_name rest
  end.

(** [delete_document]. *)
Definition delete_document (svc : EmbeddingService) (source_name : string)
  : M bool :=
  s ← get;
  if bool_decide (_index s = None) || bool_decide (_documents s = [])
  then ret false
  else
    let new_docs := keep_other_sources source_name (_documents s) in
    if Nat.eqb (length new_docs) (length (_documents s)) then ret false
    else
      (if bool_decide (new_docs = []) then reset_collection
       else
         let texts := doc_text <$> new_docs in
         embeddings ← call (CallEmbedTexts texts) (embed_texts svc texts);
         embeddings_np ← lift (np_array embeddings);
         let embeddings_np := normalize_L2 embeddings_np in
         set_index (Some (IndexFlatIP_new (shape1 embeddings_np)));;
         index_add embeddings_np;;
         set_documents new_docs;;
         _save);;
      ret true.

End VectorStore.

Arguments ndarray : clear implicits.
Arguments IndexFlatIP : clear implicits.
Arguments EmbeddingService : clear implicits.
Arguments VectorStoreService : clear implicits.
Arguments QueryResult : clear implicits.
Arguments M : clear implicits.

(** ** The answering orchestrator ([llm_service.py]) *)

Section LLM.

Context {F : Type}.

Definition SYSTEM_PROMPT : string :=
"You are a knowledgeable assistant that answers questions based ONLY on the provided context.

Rules:
1. Answer the question using ONLY the information from the context below.
2. If the context does not contain enough information to answer the question, say so clearly.
3. Be precise and concise in your answers.
4. When possible, quote the relevant parts from the context.
5. Answer in the same language as the question.".

Definition newline : string := String (Ascii.ascii_of_nat 10) EmptyString.

(** [USER_PROMPT_TEMPLATE.format(context=..., question=...)]. *)
Definition USER_PROMPT_TEMPLATE_format (context question : string) : string :=
  "Context:" +:+ newline +:+ context +:+ newline +:+ newline +:+ "---"
  +:+ newline +:+ newline +:+ "Question: " +:+ question +:+ newline +:+ newline
  +:+ "Provide a precise answer based on the context above. Include relevant quotes as references.".

(** The loop of [_build_context], [i] counting from 1. *)
Fixpoint context_parts (i : nat) (context_chunks : list (QueryResult F))
  : list string :=
  match context_chunks with
  | [] => []
  | chunk :: rest =>
      let source := default "unknown" (source (res_metadata chunk)) in
      let page :=
        match page (res_metadata chunk) with
        | Some p => pretty p
        | None => "?"
        end in
      ("[Source " +:+ pretty i +:+ ": " +:+ source +:+ ", Page " +:+ page
         +:+ "]" +:+ newline +:+ res_text chunk)
        :: context_parts (S i) rest
  end.

(** [_build_context]. *)
Definition _build_context (context_chunks : list (QueryResult F)) : string :=
  String.concat (newline +:+ newline) (context_parts 1 context_chunks).

(** An [LLMProvider]: its [name], what [is_available()] answers, and
    [generate], which returns the text or raises. *)
Record LLMProvider := mkProvider {
  name : string;
  is_available : bool;
  generate : string -> string -> Exc string
}.

Record LLMService := mkLLMService {
  _providers : list LLMProvider
}.

(** [_init_providers], from the candidates in priority order. *)
Definition _init_providers (candidates : list LLMProvider) : LLMService :=
  mkLLMService (List.filter is_available candidates).

(** The dict [generate_answer] returns. *)
Record Answer := mkAnswer {
  answer : string;
  references : list string
}.

(** One call of [provider.generate]. *)
Record Invocation := mkInvocation {
  inv_provider : string;
  inv_system_prompt : string;
  inv_user_prompt : string
}.

Definition NO_DOCUMENTS_ANSWER : string :=
  "No relevant documents found to answer this question. Please upload relevant documents first.".

(** The loop [for provider in providers] of [generate_answer], with the
    [raise] that follows it; the second component lists the calls of
    [generate] made. *)
Fixpoint try_providers (providers : list LLMProvider) (user_prompt : string)
    (context_chunks : list (QueryResult F)) (last_error : option Exception)
  : Exc Answer * list Invocation :=
  match providers with
  | [] =>
      (Raise (RuntimeError
                ("All LLM providers failed. Last error: " +:+ str_exc last_error)),
       [])
  | provider :: rest =>
      let inv := mkInvocation (name provider) SYSTEM_PROMPT user_prompt in
      match generate provider SYSTEM_PROMPT user_prompt with
      | Ok answer =>
          let references := res_text <$> context_chunks in
          (Ok (mkAnswer answer references), [inv])
      | Raise e =>
          let (r, invs) := try_providers rest user_prompt context_chunks (Some e) in
          (r, inv :: invs)
      end
  end.

(** [if provider:] on an optional string. *)
Definition requested (provider : option string) : option string :=
  match provider with
  | Some p => if bool_decide (p = "") then None else Some p
  | None => None
  end.

(** [generate_answer]: the result, and the calls of [generate] made. *)
Definition generate_answer (self : LLMService) (question : string)
    (context_chunks : list (QueryResult F)) (provider : option string)
  : Exc Answer * list Invocation :=
  match context_chunks with
  | [] => (Ok (mkAnswer NO_DOCUMENTS_ANSWER []), [])
  | _ :: _ =>
      match _providers self with
      | [] =>
          (Raise (RuntimeError
                    "No LLM providers configured. Set GEMINI_API_KEY or OPENAI_API_KEY in .env"),
           [])
      | _ :: _ =>
          let user_prompt :=
            USER_PROMPT_TEMPLATE_format (_build_context context_chunks) question in
          match requested provider with
          | Some p =>
              match filter (fun q => name q = p) (_providers self) with
              | [] =>
                  (Raise (RuntimeError
                            ("Provider '" +:+ p +:+ "' is not available. "
                               +:+ "Check that its API key is set in .env")),
                   [])
              | providers =>
                  try_providers providers user_prompt context_chunks None
              end
          | None =>
              try_providers (_providers self) user_prompt context_chunks None
          end
      end
  end.

End LLM.

(** *** The two providers and the construction of the service *)

(** The fields of [settings] that the providers and the PDF processor
    read. *)
Record ServiceSettings := mkServiceSettings {
  gemini_api_key : string;
  openai_api_key : string;
  chunk_size : Z;
  chunk_overlap : Z
}.

(** [bool(s)] on a string. *)
Definition str_truthy (s : string) : bool := negb (String.eqb s "").

(** [GeminiProvider]: available when the key is set; [generate] is the
    call of the Gemini client, stripped, which returns or raises. *)
Definition GeminiProvider (st : ServiceSettings)
    (generate : string -> string -> Exc string) : LLMProvider :=
  mkProvider "gemini" (str_truthy (gemini_api_key st)) generate.

(** [OpenAIProvider], likewise. *)
Definition OpenAIProvider (st : ServiceSettings)
    (generate : string -> string -> Exc string) : LLMProvider :=
  mkProvider "openai" (str_truthy (openai_api_key st)) generate.

(** [LLMService()]: [_init_providers] on Gemini, then OpenAI. *)
Definition LLMService_init (st : ServiceSettings)
    (gemini_generate openai_generate : string -> string -> Exc string)
  : LLMService :=
  _init_providers
    [GeminiProvider st gemini_generate; OpenAIProvider st openai_generate].

(** ** The PDF processor ([pdf_processor.py]) *)

Section PDFProcessor.

(** [str.strip]. *)
Variable strip : string -> string.

(** [pdfplumber.open(io.BytesIO(file_content))] and, for each page of the
    document, [page.extract_text()]: opening may raise, and so may the
    extraction of a page, which otherwise gives [None] or a text. *)
Variable pdfplumber_open : string -> Exc (list (Exc (option string))).

(** [RecursiveCharacterTextSplitter(chunk_size=..., chunk_overlap=...,
    length_function=len, separators=[...])]: the constructor raises for
    some sizes (a [ValueError] when the overlap is larger than the chunk
    size) and otherwise gives a splitter, here its [split_text]. *)
Variable RecursiveCharacterTextSplitter : Z -> Z -> Exc (string -> list string).

(** One entry of the list [extract_text_from_pdf] returns:
    [{"text", "page", "source"}]. *)
Record PageData := mkPage {
  page_text : string;
  page_number : Z;
  page_source : string
}.

Record PDFProcessor := mkPDFProcessor {
  self_chunk_size : Z;
  self_chunk_overlap : Z;
  text_splitter : string -> list string
}.

(** [x or y] on an optional integer: [None] and [0] are falsy. *)
Definition int_or (x : option Z) (y : Z) : Z :=
  match x with
  | Some n => if n =? 0 then y else n
  | None => y
  end.

(** [PDFProcessor(chunk_size, chunk_overlap)]: what the constructor of the
    splitter raises leaves [__init__]. *)
Definition PDFProcessor_init (st : ServiceSettings)
    (chunk_size_arg chunk_overlap_arg : option Z) : Exc PDFProcessor :=
  let size := int_or chunk_size_arg (chunk_size st) in
  let overlap := int_or chunk_overlap_arg (chunk_overlap st) in
  match RecursiveCharacterTextSplitter size overlap with
  | Ok split_text => Ok (mkPDFProcessor size overlap split_text)
  | Raise e => Raise e
  end.

(** The loop [for page_num, page in enumerate(pdf.pages, start=1)] of
    [extract_text_from_pdf]: a page without text, or with blanks only, is
    left out; its number is not reused. *)
Fixpoint extract_pages (filename : string) (page_num : Z)
    (pdf_pages : list (Exc (option string))) (pages : list PageData)
  : Exc (list PageData) :=
  match pdf_pages with
  | [] => Ok pages
  | Raise e :: _ => Raise e
  | Ok text :: rest =>
      match text with
      | Some t =>
          if str_truthy t && str_truthy (strip t)
          then
            extract_pages filename (page_num + 1) rest
              (pages ++ [mkPage (strip t) page_num filename])
          else extract_pages filename (page_num + 1) rest pages
      | None => extract_pages filename (page_num + 1) rest pages
      end
  end.

(** [extract_text_from_pdf]: every exception becomes a [ValueError] that
    quotes it. *)
Definition extract_text_from_pdf (file_content filename : string)
  : Exc (list PageData) :=
  let attempt :=
    match pdfplumber_open file_content with
    | Ok pdf_pages => extract_pages filename 1 pdf_pages []
    | Raise e => Raise e
    end in
  match attempt with
  | Ok pages => Ok pages
  | Raise e =>
      Raise (ValueError ("Failed to process PDF '" +:+ filename +:+ "': "
                           +:+ exc_msg e))
  end.

(** The loop [for i, chunk_text in enumerate(page_chunks)]. *)
Fixpoint enumerate_chunks (page_data : PageData) (i : nat)
    (page_chunks : list string) (chunks : list DocumentChunk)
  : list DocumentChunk :=
  match page_chunks with
  | [] => chunks
  | chunk_text :: rest =>
      enumerate_chunks page_data (S i) rest
        (chunks
           ++ [mkChunk chunk_text
                 (mkMeta (Some (page_source page_data))
                    (Some (page_number page_data))
                    (Some (Z.of_nat i)))])
  end.

(** The loop [for page_data in pages], with the splitter it uses. *)
Fixpoint chunk_pages (split_text : string -> list string)
    (pages : list PageData) (chunks : list DocumentChunk)
  : list DocumentChunk :=
  match pages with
  | [] => chunks
  | page_data :: rest =>
      chunk_pages split_text rest
        (enumerate_chunks page_data 0 (split_text (page_text page_data)) chunks)
  end.

(** [chunk_text]. *)
Definition chunk_text (self : PDFProcessor) (pages : list PageData)
  : list DocumentChunk :=
  chunk_pages (text_splitter self) pages [].

(** [process_pdf]: the pages are extracted first; with an override, a
    temporary splitter is then built, outside any [try], and the same two
    loops run on it. *)
Definition process_pdf (self : PDFProcessor) (file_content filename : string)
    (chunk_size chunk_overlap : option Z) : Exc (list DocumentChunk) :=
  match extract_text_from_pdf file_content filename with
  | Raise e => Raise e
  | Ok pages =>
      match chunk_size, chunk_overlap with
      | None, None => Ok (chunk_text self pages)
      | _, _ =>
          let size := default (self_chunk_size self) chunk_size in
          let overlap := default (self_chunk_overlap self) chunk_overlap in
          match RecursiveCharacterTextSplitter size overlap with
          | Raise e => Raise e
          | Ok temp_splitter => Ok (chunk_pages temp_splitter pages [])
          end
      end
  end.

End PDFProcessor.

(** ** The routes ([api/models.py], [api/routes.py]) *)

(** [models.LLMProvider], the enumeration of the request model. *)
Inductive ProviderChoice := GEMINI | OPENAI.

(** [provider.value]. *)
Definition provider_value (p : ProviderChoice) : string :=
  match p with
  | GEMINI => "gemini"
  | OPENAI => "openai"
  end.

Record QuestionRequest := mkQuestionRequest {
  request_question : string;
  request_provider : option ProviderChoice
}.

Record QuestionResponse := mkQuestionResponse {
  response_answer : string;
  response_references : list string
}.

Record DocumentUploadResponse := mkDocumentUploadResponse {
  message : string;
  documents_indexed : nat;
  response_total_chunks : nat
}.

(** An uploaded file: [file.filename] and what [await file.read()]
    gives. *)
Record UploadFile := mkUploadFile {
  filename : option string;
  read : Exc string
}.

(** What a route hands to the framework: its return value, an
    [HTTPException] it raised, or another exception it let through. *)
Inductive HTTP (A : Type) : Type :=
| Respond (a : A)
| HTTPException (status_code : Z) (detail : string)
| Uncaught (e : Exception).
Arguments Respond {A} a.
Arguments HTTPException {A} status_code detail.
Arguments Uncaught {A} e.

(** [s.endswith(suffix)]. *)
Definition endswith (s suffix : string) : bool :=
  let n := String.length s in
  let m := String.length suffix in
  (m <=? n)%nat && String.eqb (String.substring (n - m) m s) suffix.

(** [str(x)] inside an f-string, for an optional string. *)
Definition str_opt (o : option string) : string := default "None" o.

Section Routes.

Context {F : Type}.
Variable normalize_row : list F -> list F.
Variable index_search : IndexFlatIP F -> ndarray F -> Z -> Exc (list (F * Z)).
Variable settings : Settings.
Variable strip : string -> string.
Variable pdfplumber_open : string -> Exc (list (Exc (option string))).
Variable RecursiveCharacterTextSplitter : Z -> Z -> Exc (string -> list string).

(** [str.lower]. *)
Variable lower : string -> string.

#[local] Existing Instances M_ret M_bind.

(** [try: body except Exception as e: handler]. *)
Definition try_except {A} (body : M F A) (handler : Exception -> M F A) : M F A :=
  fun s =>
    match body s with
    | (Ok a, s1, l1) => (Ok a, s1, l1)
    | (Raise e, s1, l1) =>
        match handler e s1 with
        | (r, s2, l2) => (r, s2, l1 ++ l2)
        end
    end.

(** The local variables [total_chunks], [documents_indexed] and [errors]
    of [upload_documents]. *)
Record Tally := mkTally {
  tally_chunks : nat;
  tally_indexed : nat;
  tally_errors : list string
}.

Definition add_error (t : Tally) (error : string) : Tally :=
  mkTally (tally_chunks t) (tally_indexed t) (tally_errors t ++ [error]).

(** The body of the loop [for file in files] of [upload_documents]. *)
Definition upload_file (pdf_processor : PDFProcessor)
    (svc : EmbeddingService F) (uuid4 : nat -> string)
    (file : UploadFile) (t : Tally) : M F Tally :=
  let name := default "" (filename file) in
  let quoted := "'" +:+ str_opt (filename file) +:+ "': " in
  if negb (str_truthy name) || negb (endswith (lower name) ".pdf")
  then ret (add_error t (quoted +:+ "Not a PDF file, skipped."))
  else
    try_except
      (content ← lift (read file);
       if negb (str_truthy content)
       then ret (add_error t (quoted +:+ "Empty file, skipped."))
       else
         chunks ← lift (process_pdf strip pdfplumber_open
                          RecursiveCharacterTextSplitter pdf_processor
                          content name None None);
         match chunks with
         | [] => ret (add_error t (quoted +:+ "No text could be extracted."))
         | _ :: _ =>
             num_chunks ← add_chunks normalize_row svc uuid4 chunks;
             ret (mkTally (tally_chunks t + num_chunks)
                    (tally_indexed t + 1) (tally_errors t))
         end)
      (fun e => ret (add_error t (quoted +:+ exc_msg e))).

(** The loop, [uuid4 k] giving the identifiers drawn for file [k]. *)
Fixpoint upload_files (pdf_processor : PDFProcessor)
    (svc : EmbeddingService F) (uuid4 : nat -> nat -> string) (k : nat)
    (files : list UploadFile) (t : Tally) : M F Tally :=
  match files with
  | [] => ret t
  | file :: rest =>
      t' ← upload_file pdf_processor svc (uuid4 k) file t;
      upload_files pdf_processor svc uuid4 (S k) rest t'
  end.

(** [upload_documents]. *)
Definition upload_documents (pdf_processor : PDFProcessor)
    (svc : EmbeddingService F) (uuid4 : nat -> nat -> string)
    (files : list UploadFile) (s : VectorStoreService F)
  : HTTP DocumentUploadResponse * VectorStoreService F * list Call :=
  match files with
  | [] => (HTTPException 400 "No files provided.", s, [])
  | _ :: _ =>
      match upload_files pdf_processor svc uuid4 0 files (mkTally 0 0 []) s with
      | (Ok t, s', log) =>
          let joined := String.concat "; " (tally_errors t) in
          if Nat.eqb (tally_indexed t) 0
          then
            let error_detail :=
              "No documents were successfully processed."
              +:+ match tally_errors t with
                  | [] => ""
                  | _ :: _ => " Errors: " +:+ joined
                  end in
            (HTTPException 400 error_detail, s', log)
          else
            let message :=
              "Documents processed successfully"
              +:+ match tally_errors t with
                  | [] => ""
                  | _ :: _ => " (with warnings: " +:+ joined +:+ ")"
                  end in
            (Respond (mkDocumentUploadResponse message (tally_indexed t)
                        (tally_chunks t)),
             s', log)
      | (Raise e, s', log) => (Uncaught e, s', log)
      end
  end.

(** The route [GET /documents]. *)
Definition route_list_documents (s : VectorStoreService F) : list string :=
  list_documents s.

(** The route [DELETE /documents/{filename}]. *)
Definition route_delete_document (svc : EmbeddingService F)
    (filename : string) (s : VectorStoreService F)
  : HTTP string * VectorStoreService F * list Call :=
  match delete_document normalize_row svc filename s with
  | (Ok success, s', log) =>
      if success
      then (Respond ("Document '" +:+ filename +:+ "' deleted successfully"), s', log)
      else (HTTPException 404 ("Document '" +:+ filename +:+ "' not found"), s', log)
  | (Raise e, s', log) => (Uncaught e, s', log)
  end.

(** [ask_question]: the calls of the embedding service and of the
    providers are returned beside the outcome. *)
Definition ask_question (svc : EmbeddingService F) (llm_service : LLMService)
    (request : QuestionRequest) (s : VectorStoreService F)
  : HTTP QuestionResponse * VectorStoreService F * list Call * list Invocation :=
  let failed (e : Exception) : HTTP QuestionResponse :=
    HTTPException 500 ("Failed to process question: " +:+ exc_msg e) in
  match query normalize_row index_search settings svc
          (request_question request) None s with
  | (Ok relevant_chunks, s', log) =>
      match generate_answer llm_service (request_question request)
              relevant_chunks (provider_value <$> request_provider request) with
      | (Ok result, invs) =>
          (Respond (mkQuestionResponse (answer result) (references result)),
           s', log, invs)
      | (Raise e, invs) => (failed e, s', log, invs)
      end
  | (Raise e, s', log) => (failed e, s', log, [])
  end.

End Routes.

(** ** Notions used in the statements *)

Section StoreNotions.

Context {F : Type}.
Variable normalize_row : list F -> list F.
Variable settings : Settings.

(** The sentence-transformers model as a function of one text. *)
Variable enc : string -> list F.

Implicit Types (s : VectorStoreService F) (svc : EmbeddingService F).
Implicit Types (chunks : list DocumentChunk).

(** The records [add_chunks] appends for a batch: the [j]-th chunk gets
    the [j]-th identifier drawn. *)
Definition new_records (uuid4 : nat -> string) (i : nat) chunks : list Doc :=
  imap (fun j c => mkDoc (uuid4 (i + j)%nat) (text c) (metadata c)) chunks.

(** The vectors the index holds, none when there is no index. *)
Definition vectors s : list (list F) :=
  match _index s with
  | Some idx => xb idx
  | None => []
  end.

(** The number of vectors in the index, as [get_collection_stats] counts
    them. *)
Definition vector_count s : nat :=
  total_chunks (get_collection_stats settings s).

(** Every store the class builds has an index when it has documents. *)
Definition has_index_if_documents s : Prop :=
  _index s = None -> _documents s = [].

(** [VectorStoreService()]: the attributes as [_load] sets them from the
    two files. *)
Definition init (files : option (IndexFlatIP F) * option (list Doc))
  : VectorStoreService F :=
  (_load (mkStore None [] files.1 files.2)).1.2.

(** What [add_chunks] does on a non-empty batch, by cases on the
    collaborators. *)
Definition add_outcome svc (uuid4 : nat -> string) chunks s
  : Exc nat * VectorStoreService F * list Call :=
  let texts := text <$> chunks in
  let log := [CallEmbedTexts texts] in
  match embed_texts svc texts with
  | Raise e => (Raise e, s, log)
  | Ok embeddings =>
      match np_array embeddings with
      | Raise e => (Raise e, s, log)
      | Ok x =>
          let dim := match _index s with Some idx => d idx | None => shape1 x end in
          let old := match _index s with Some idx => xb idx | None => [] end in
          if Nat.eqb (shape1 x) dim then
            let idx' := mkIndex dim (old ++ (normalize_row <$> rows x)) in
            let docs' := _documents s ++ new_records uuid4 0 chunks in
            (Ok (length chunks), mkStore (Some idx') docs' (Some idx') (Some docs'), log)
          else (Raise AssertionError, s, log)
      end
  end.

(** What [delete_document] does, by cases on the store and on the
    embedding service. *)
Definition delete_outcome svc (source_name : string) s
  : Exc bool * VectorStoreService F * list Call :=
  match _index s, _documents s with
  | None, _ | _, [] => (Ok false, s, [])
  | Some _, _ :: _ =>
      let new_docs := keep_other_sources source_name (_documents s) in
      if Nat.eqb (length new_docs) (length (_documents s)) then (Ok false, s, [])
      else
        match new_docs with
        | [] => (Ok true, mkStore None [] None None, [])
        | _ :: _ =>
            let texts := doc_text <$> new_docs in
            let log := [CallEmbedTexts texts] in
            match embed_texts svc texts with
            | Raise e => (Raise e, s, log)
            | Ok embeddings =>
                match np_array embeddings with
                | Raise e => (Raise e, s, log)
                | Ok x =>
                    let idx' := mkIndex (shape1 x) (normalize_row <$> rows x) in
                    (Ok true, mkStore (Some idx') new_docs (Some idx') (Some new_docs), log)
                end
            end
        end
  end.

(** The embedding service, when it answers, answers with the model's
    vector of each text, in order. *)
Definition faithful svc : Prop :=
  forall texts embeddings,
    encode svc texts = Ok embeddings -> embeddings = enc <$> texts.

(** The vector that belongs to a document. *)
Definition vector_of (doc : Doc) : list F := normalize_row (enc (doc_text doc)).

(** The invariant: the vectors of the index are those of the documents,
    position by position. *)
Definition coupled s : Prop := vectors s = vector_of <$> _documents s.

(** The mutating operations of the store. *)
Inductive Op :=
| OpAdd (svc : EmbeddingService F) (uuid4 : nat -> string) (chunks : list DocumentChunk)
| OpDelete (svc : EmbeddingService F) (source_name : string)
| OpReset.

Definition op_faithful (op : Op) : Prop :=
  match op with
  | OpAdd svc _ _ | OpDelete svc _ => faithful svc
  | OpReset => True
  end.

(** The store an operation leaves, whether it returned or raised. *)
Definition apply_op (s : VectorStoreService F) (op : Op) : VectorStoreService F :=
  match op with
  | OpAdd svc uuid4 chunks => (add_chunks normalize_row svc uuid4 chunks s).1.2
  | OpDelete svc source_name => (delete_document normalize_row svc source_name s).1.2
  | OpReset => (reset_collection s).1.2
  end.

Definition run_ops (ops : list Op) (s : VectorStoreService F) : VectorStoreService F :=
  foldl apply_op s ops.

(** The store of a process that found no files. *)
Definition empty_store : VectorStoreService F := mkStore None [] None None.

(** The result for one hit of the search: the document at the returned
    position, when there is one. *)
Definition hit_record (docs : list Doc) (hit : F * Z) : option (QueryResult F) :=
  if hit.2 <? 0 then None
  else (fun doc => mkResult (doc_text doc) (doc_metadata doc) hit.1)
         <$> docs !! Z.to_nat hit.2.

End StoreNotions.

Arguments Op : clear implicits.

Section LLMNotions.

Context {F : Type}.

Implicit Types (self : LLMService) (chunks : list (QueryResult F)).

(** The providers [generate_answer] will try: the registry, or its
    entries of the requested name. *)
Definition candidates self (provider : option string) : list LLMProvider :=
  match requested provider with
  | Some p => filter (fun q => name q = p) (_providers self)
  | None => _providers self
  end.

(** The prompt every candidate receives. *)
Definition user_prompt_of chunks (question : string) : string :=
  USER_PROMPT_TEMPLATE_format (_build_context chunks) question.

(** The call of [generate] made on a provider. *)
Definition invocation (user_prompt : string) (p : LLMProvider) : Invocation :=
  mkInvocation (name p) SYSTEM_PROMPT user_prompt.

(** The provider raises on the prompt. *)
Definition fails (user_prompt : string) (p : LLMProvider) : Prop :=
  exists e, generate p SYSTEM_PROMPT user_prompt = Raise e.

Definition NOT_CONFIGURED : string :=
  "No LLM providers configured. Set GEMINI_API_KEY or OPENAI_API_KEY in .env".

Definition not_available (p : string) : string :=
  "Provider '" +:+ p +:+ "' is not available. Check that its API key is set in .env".

Definition all_failed (e : Exception) : string :=
  "All LLM providers failed. Last error: " +:+ exc_msg e.

End LLMNotions.

Section MoreStoreNotions.

Context {F : Type}.

Implicit Types (s : VectorStoreService F).

(** A new process, started on the files of the store, gets the
    attributes the store has. *)
Definition restart_stable s : Prop :=
  init (index_file s, meta_file s) = s.

(** The document has the source. *)
Definition from_source (source_name : string) (doc : Doc) : Prop :=
  source (doc_metadata doc) = Some source_name.

#[global] Instance from_source_dec source_name doc :
  Decision (from_source source_name doc).
Proof. unfold from_source. apply _. Defined.

(** The result was made from the document. *)
Definition result_of (doc : Doc) (r : QueryResult F) : Prop :=
  res_text r = doc_text doc /\ res_metadata r = doc_metadata doc.

End MoreStoreNotions.

(** The chunks of one page: piece [i] of its text, with the source and
    the number of the page and with [i] as [chunk_index]. *)
Definition page_chunks_of (split_text : string -> list string) (p : PageData)
  : list DocumentChunk :=
  imap (fun i t =>
          mkChunk t (mkMeta (Some (page_source p)) (Some (page_number p))
                       (Some (Z.of_nat i))))
    (split_text (page_text p)).

(** ** A small instance

    Integer vectors, the identity for the normalisation, an exhaustive
    inner-product search, and two embedding services: one that answers
    and one that raises. The statements below are instantiated on it. *)

Module Toy.

Definition enc (t : string) : list Z := [Z.of_nat (String.length t); 1].

Definition model : EmbeddingService Z :=
  mkEmbeddingService (fun texts => Ok (enc <$> texts)).

Definition offline : EmbeddingService Z :=
  mkEmbeddingService (fun _ => Raise (RuntimeError "model not loaded")).

(** A model of another dimension than the one the index was built with. *)
Definition wide : EmbeddingService Z :=
  mkEmbeddingService (fun texts => Ok ((fun _ => [1; 2; 3]) <$> texts)).

Definition normalize (v : list Z) : list Z := v.

Definition dot (u v : list Z) : Z := foldr Z.add 0 (zip_with Z.mul u v).

Definition by_score (a b : Z * Z) : Prop := b.1 <= a.1.

#[local] Instance by_score_dec a b : Decision (by_score a b).
Proof. unfold by_score. apply _. Defined.

(** All inner products, best first, cut after [k]. *)
Definition flat_search (idx : IndexFlatIP Z) (q : ndarray Z) (k : Z)
  : Exc (list (Z * Z)) :=
  match rows q with
  | [v] =>
      if (k <=? 0) || negb (Nat.eqb (shape1 q) (d idx))
      then Raise AssertionError
      else
        Ok (take (Z.to_nat k)
              (merge_sort by_score
                 (imap (fun i x => (dot v x, Z.of_nat i)) (xb idx))))
  | _ => Raise AssertionError
  end.

Definition uuid4 (i : nat) : string := "id-" +:+ pretty i.

Definition motor : DocumentChunk :=
  mkChunk "The motor draws 5A." (mkMeta (Some "spec.pdf") (Some 1) (Some 0)).
Definition bearing : DocumentChunk :=
  mkChunk "Bearing" (mkMeta (Some "manual.pdf") (Some 2) (Some 0)).
Definition oil : DocumentChunk :=
  mkChunk "Oil" (mkMeta (Some "spec.pdf") (Some 3) (Some 1)).

(** The store after the three chunks have been added. *)
Definition stocked : VectorStoreService Z :=
  (add_chunks normalize model uuid4 [motor; bearing; oil] empty_store).1.2.

(** A store with the chunks of one source only. *)
Definition spec_only : VectorStoreService Z :=
  (add_chunks normalize model uuid4 [motor; oil] empty_store).1.2.

(** A store whose index holds one vector more than it has documents, as
    inconsistent files would give. *)
Definition stale : VectorStoreService Z :=
  mkStore (_index stocked) (take 2 (_documents stocked)) None None.

Definition session : list (Op Z) :=
  [OpAdd model uuid4 [motor; bearing];
   OpAdd offline uuid4 [oil];
   OpAdd model uuid4 [oil];
   OpDelete model "manual.pdf";
   OpDelete offline "spec.pdf";
   OpReset;
   OpAdd model uuid4 [bearing]].

Definition gemini_down : LLMProvider :=
  mkProvider "gemini" true (fun _ _ => Raise (mkExc "ServerError" "quota exceeded")).
Definition openai_down : LLMProvider :=
  mkProvider "openai" true (fun _ _ => Raise (mkExc "APITimeoutError" "timed out")).
Definition openai_up : LLMProvider :=
  mkProvider "openai" true (fun _ _ => Ok "The motor draws 5A.").

(** Two retrieved chunks, best first. *)
Definition retrieved : list (QueryResult Z) :=
  [mkResult "The motor draws 5A." (metadata motor) 58;
   mkResult "Bearing" (metadata bearing) 22].

Definition question : string := "What is the motor current?".

End Toy.

(** A small document service: two-page and unreadable documents, a
    splitter that cuts after a full stop, and file names in lower case. *)

Module ToyApp.

Definition strip (t : string) : string := if String.eqb t " " then "" else t.

Definition lower (t : string) : string :=
  if String.eqb t "SPEC.PDF" then "spec.pdf" else t.

Definition pdfplumber_open (content : string) : Exc (list (Exc (option string))) :=
  if String.eqb content "%PDF motor" then
    Ok [Ok (Some "The motor draws 5A. Bearing"); Ok (Some " "); Ok None; Ok (Some "Oil")]
  else if String.eqb content "%PDF torn" then
    Ok [Ok (Some "Cover"); Raise (mkExc "PDFSyntaxError" "bad page")]
  else Raise (mkExc "PDFSyntaxError" "No /Root object!").

Definition split_text (t : string) : list string :=
  if String.eqb t "The motor draws 5A. Bearing"
  then ["The motor draws 5A."; "Bearing"]
  else [t].

Definition splitter (size overlap : Z) : Exc (string -> list string) :=
  if size <? overlap
  then Raise (ValueError ("Got a larger chunk overlap (" +:+ pretty overlap
                            +:+ ") than chunk size (" +:+ pretty size
                            +:+ "), should be smaller."))
  else Ok split_text.

Definition env : ServiceSettings := mkServiceSettings "" "sk-test" 1000 200.

Definition processor : PDFProcessor := mkPDFProcessor 1000 200 split_text.

Definition uuids (k i : nat) : string := "id-" +:+ pretty k +:+ "-" +:+ pretty i.

Definition upload : list UploadFile :=
  [mkUploadFile (Some "notes.txt") (Ok "plain text");
   mkUploadFile (Some "SPEC.PDF") (Ok "%PDF motor");
   mkUploadFile (Some "torn.pdf") (Ok "%PDF torn");
   mkUploadFile None (Ok "")].

Definition rejected_upload : list UploadFile :=
  [mkUploadFile (Some "notes.txt") (Ok "plain text");
   mkUploadFile (Some "torn.pdf") (Ok "%PDF torn")].

Definition motor_pages : list PageData :=
  [mkPage "The motor draws 5A. Bearing" 1 "spec.pdf"; mkPage "Oil" 4 "spec.pdf"].

Definition ask : QuestionRequest :=
  mkQuestionRequest "What is the motor current?" (Some GEMINI).

End ToyApp.

(** ** Properties of the vector index store *)

(** Unfolds the monad of the store down to pairs. *)
Ltac run :=
  unfold mbind, M_bind, bind, ret, get, put, lift, call,
    set_index, set_documents, unlink_files; simpl.

Section StoreFacts.

Context {F : Type}.
Variable normalize_row : list F -> list F.
Variable index_search : IndexFlatIP F -> ndarray F -> Z -> Exc (list (F * Z)).
Variable settings : Settings.
Variable enc : string -> list F.

Implicit Types (s : VectorStoreService F) (svc : EmbeddingService F).
Implicit Types (chunks : list DocumentChunk).

Lemma vector_count_eq s : vector_count settings s = length (vectors s).
Proof. unfold vector_count, vectors. simpl. by destruct (_index s). Qed.

Lemma store_metadata_run (uuid4 : nat -> string) chunks : forall i s,
  store_metadata uuid4 i (zip (text <$> chunks) (metadata <$> chunks)) s
  = (Ok tt,
     mkStore (_index s) (_documents s ++ new_records uuid4 i chunks)
       (index_file s) (meta_file s),
     []).
Proof.
  unfold new_records.
  induction chunks as [|c chunks IH]; intros i s.
  - destruct s; simpl. run. by rewrite app_nil_r.
  - cbn [fmap list_fmap zip zip_with store_metadata]. run.
    rewrite IH. simpl. rewrite <- app_assoc. simpl.
    rewrite Nat.add_0_r. do 5 f_equal.
    apply imap_ext. intros j x _. simpl. by rewrite Nat.add_succ_r.
Qed.

Lemma np_array_shape (l : list (list F)) (x : ndarray F) :
  np_array l = Ok x -> rows x = l /\ l <> [] /\ Forall (fun r => length r = shape1 x) l.
Proof.
  unfold np_array. destruct l as [|r rs]; [done|].
  destruct (forallb _ rs) eqn:E; [|done].
  intros [= <-]. simpl. split; [done|]. split; [done|].
  constructor; [done|].
  apply Is_true_true, forallb_True in E. eapply Forall_impl; [exact E|].
  simpl. intros r' H. by apply Nat.eqb_eq, Is_true_true.
Qed.

Lemma np_array_ok (l : list (list F)) (n : nat) :
  l <> [] -> Forall (fun r => length r = n) l ->
  np_array l = Ok (mkArray n l).
Proof.
  intros Hne Hall. destruct l as [|r rs]; [done|].
  apply Forall_cons in Hall as [Hr Hrs]. unfold np_array.
  replace (forallb _ rs) with true; [by rewrite Hr|].
  symmetry. apply Is_true_true, forallb_True.
  eapply Forall_impl; [exact Hrs|]. simpl. intros r' H.
  apply Is_true_true, Nat.eqb_eq. congruence.
Qed.

Lemma add_chunks_run svc (uuid4 : nat -> string) chunks s :
  chunks <> [] ->
  add_chunks normalize_row svc uuid4 chunks s = add_outcome normalize_row svc uuid4 chunks s.
Proof.
  intros Hne. unfold add_chunks, add_outcome.
  rewrite bool_decide_eq_false_2 by done. run.
  destruct (embed_texts svc (text <$> chunks)) as [embeddings|e]; [|reflexivity].
  destruct (np_array embeddings) as [x|e]; [|reflexivity].
  unfold _ensure_index, index_add. run.
  destruct s as [[idx|] docs fi fm]; simpl.
  - unfold IndexFlatIP_add. simpl.
    destruct (Nat.eqb (shape1 x) (d idx)); [|reflexivity]. simpl.
    rewrite store_metadata_run. reflexivity.
  - unfold IndexFlatIP_add, IndexFlatIP_new. simpl. rewrite Nat.eqb_refl. simpl.
    rewrite store_metadata_run. reflexivity.
Qed.

(** *** Adding a batch *)

(** C10. [add_chunks] on an empty batch returns 0 and changes nothing:
    the embedding service is not called, the index, the documents and the
    two files stay as they were. *)
Theorem add_chunks_empty_batch svc (uuid4 : nat -> string) s :
  add_chunks normalize_row svc uuid4 [] s = (Ok 0%nat, s, []).
Proof. reflexivity. Qed.

(** C3. A failure of [add_chunks] is all-or-nothing. An exception of the
    embedding service, or of the insertion into an index of another
    dimension, is the one the caller sees; whenever [add_chunks] raises,
    the index, the documents and both files are as before the call; and
    when it returns on a non-empty batch, every chunk has been appended
    and both files hold the new index and the new documents. *)
Theorem add_chunks_all_or_nothing svc (uuid4 : nat -> string) chunks s :
  (forall e, chunks <> [] ->
     embed_texts svc (text <$> chunks) = Raise e ->
     add_chunks normalize_row svc uuid4 chunks s
     = (Raise e, s, [CallEmbedTexts (text <$> chunks)]))
  /\ (forall embeddings x idx e, chunks <> [] ->
        embed_texts svc (text <$> chunks) = Ok embeddings ->
        np_array embeddings = Ok x ->
        _index s = Some idx ->
        IndexFlatIP_add idx (normalize_L2 normalize_row x) = Raise e ->
        add_chunks normalize_row svc uuid4 chunks s
        = (Raise e, s, [CallEmbedTexts (text <$> chunks)]))
  /\ (forall e s' log,
        add_chunks normalize_row svc uuid4 chunks s = (Raise e, s', log) ->
        s' = s)
  /\ (forall n s' log, chunks <> [] ->
        add_chunks normalize_row svc uuid4 chunks s = (Ok n, s', log) ->
        exists embeddings idx',
          embed_texts svc (text <$> chunks) = Ok embeddings
          /\ _index s' = Some idx'
          /\ xb idx' = vectors s ++ (normalize_row <$> embeddings)
          /\ _documents s' = _documents s ++ new_records uuid4 0 chunks
          /\ index_file s' = Some idx'
          /\ meta_file s' = Some (_documents s')).
Proof.
  split; [|split; [|split]].
  - intros e Hne He. rewrite add_chunks_run by done.
    unfold add_outcome. by rewrite He.
  - intros embeddings x idx e Hne He Hx Hidx Hadd.
    rewrite add_chunks_run by done. unfold add_outcome.
    rewrite He, Hx, Hidx. revert Hadd. unfold IndexFlatIP_add. simpl.
    destruct (Nat.eqb (shape1 x) (d idx)); [done | by intros [= <-]].
  - intros e s' log. destruct chunks as [|c cs]; [done|].
    rewrite add_chunks_run by done. unfold add_outcome.
    destruct (embed_texts _ _) as [embeddings|e']; [|congruence].
    destruct (np_array embeddings) as [x|e']; [|congruence].
    destruct (Nat.eqb _ _); congruence.
  - intros n s' log Hne. rewrite add_chunks_run by done. unfold add_outcome.
    destruct (embed_texts _ _) as [embeddings|e']; [|done].
    destruct (np_array embeddings) as [x|e'] eqn:Hx; [|done].
    destruct (Nat.eqb _ _); [|done]. intros [= _ <- _].
    apply np_array_shape in Hx as [-> _].
    eexists _, _. by repeat split.
Qed.

(** C2. On a non-empty batch for which the embedding service returns one
    vector per text, all of the dimension of the index, [add_chunks]
    returns the length of the batch, [total_chunks] of the statistics
    grows by exactly that length, and the documents grow by one record per
    chunk, in the order of the batch, each with the chunk's text and
    metadata and a newly drawn identifier. *)
Theorem add_chunks_count_and_order svc (uuid4 : nat -> string) chunks s
    (embeddings : list (list F)) (dim : nat) :
  chunks <> [] ->
  embed_texts svc (text <$> chunks) = Ok embeddings ->
  length embeddings = length chunks ->
  Forall (fun v => length v = dim) embeddings ->
  (forall idx, _index s = Some idx -> d idx = dim) ->
  exists s',
    add_chunks normalize_row svc uuid4 chunks s
    = (Ok (length chunks), s', [CallEmbedTexts (text <$> chunks)])
    /\ total_chunks (get_collection_stats settings s')
       = (total_chunks (get_collection_stats settings s) + length chunks)%nat
    /\ _documents s'
       = _documents s
           ++ imap (fun j c => mkDoc (uuid4 j) (text c) (metadata c)) chunks.
Proof.
  intros Hne He Hlen Hdim Hidx.
  rewrite add_chunks_run by done. unfold add_outcome. rewrite He.
  rewrite (np_array_ok embeddings dim); [|by destruct embeddings, chunks|done].
  simpl. replace (match _index s with Some idx => d idx | None => dim end)
    with dim by (destruct (_index s) as [idx|] eqn:E; [by rewrite (Hidx idx)|done]).
  rewrite Nat.eqb_refl. eexists. split; [reflexivity|]. split; [|reflexivity].
  simpl. unfold ntotal. simpl. rewrite length_app, length_fmap, Hlen.
  by destruct (_index s).
Qed.

(** *** Deleting a source *)

Lemma keep_other_sources_filter source_name (docs : list Doc) :
  keep_other_sources source_name docs
  = filter (fun doc => source (doc_metadata doc) <> Some source_name) docs.
Proof.
  induction docs as [|doc docs IH]; [done|]. simpl.
  rewrite filter_cons, IH. by case_bool_decide; case_decide.
Qed.

Lemma keep_other_sources_length source_name (docs : list Doc) :
  (length (keep_other_sources source_name docs) <= length docs)%nat.
Proof. rewrite keep_other_sources_filter. apply length_filter. Qed.

Lemma keep_other_sources_all source_name (docs : list Doc) :
  length (keep_other_sources source_name docs) = length docs
  <-> Forall (fun doc => source (doc_metadata doc) <> Some source_name) docs.
Proof.
  induction docs as [|doc docs IH]; simpl; [by split|].
  pose proof (keep_other_sources_length source_name docs).
  case_bool_decide; simpl.
  - rewrite Forall_cons. split.
    + intros [= E]. split; [done|]. by apply IH.
    + intros [_ Hall]. f_equal. by apply IH.
  - split; [lia|]. intros Hall. by apply Forall_cons in Hall as [? _].
Qed.

Lemma keep_other_sources_id source_name (docs : list Doc) :
  Forall (fun doc => source (doc_metadata doc) <> Some source_name) docs ->
  keep_other_sources source_name docs = docs.
Proof.
  induction 1 as [|doc docs Hd _ IH]; simpl; [done|].
  by rewrite bool_decide_eq_true_2, IH.
Qed.

Lemma keep_other_sources_none source_name (docs : list Doc) :
  Forall (fun doc => source (doc_metadata doc) = Some source_name) docs ->
  keep_other_sources source_name docs = [].
Proof.
  induction 1 as [|doc docs Hd _ IH]; simpl; [done|].
  rewrite bool_decide_eq_false_2; [done|]. by intros ?.
Qed.

Lemma keep_other_sources_sound source_name (docs : list Doc) :
  Forall (fun doc => source (doc_metadata doc) <> Some source_name)
    (keep_other_sources source_name docs).
Proof.
  rewrite keep_other_sources_filter. apply Forall_forall.
  intros doc Hin. by apply list_elem_of_filter in Hin as [? _].
Qed.

Lemma delete_document_run svc source_name s :
  delete_document normalize_row svc source_name s
  = delete_outcome normalize_row svc source_name s.
Proof.
  unfold delete_document, delete_outcome. run.
  destruct s as [[idx|] [|doc docs] fi fm]; try reflexivity.
  cbn [_index _documents]. rewrite !bool_decide_eq_false_2 by done.
  cbn [orb]. generalize (keep_other_sources source_name (doc :: docs)) as new_docs.
  intros new_docs. destruct (Nat.eqb _ _); [reflexivity|].
  destruct new_docs as [|doc' new_docs]; [reflexivity|].
  rewrite bool_decide_eq_false_2 by done. unfold reset_collection. run.
  destruct (embed_texts _ _) as [embeddings|e]; [|reflexivity].
  destruct (np_array embeddings) as [x|e]; [|reflexivity].
  unfold index_add, IndexFlatIP_add, _save. run. rewrite Nat.eqb_refl. reflexivity.
Qed.

(** A [delete_document] that raises has changed nothing. *)
Lemma delete_document_raise_unchanged svc (source_name : string) s e s' log :
  delete_document normalize_row svc source_name s = (Raise e, s', log) ->
  s' = s.
Proof.
  rewrite delete_document_run. unfold delete_outcome.
  destruct (_index s) as [idx|]; [|done].
  destruct (_documents s) as [|doc docs]; [done|].
  destruct (Nat.eqb _ _); [done|].
  destruct (keep_other_sources _ _) as [|doc' new_docs]; [done|].
  destruct (embed_texts _ _) as [embeddings|e']; [|congruence].
  destruct (np_array embeddings) as [x|e']; congruence.
Qed.

(** After an [add_chunks] that returned on a non-empty batch, a new
    process reads back the attributes the old one had. *)
Lemma add_chunks_then_restart svc (uuid4 : nat -> string) chunks s n s' log :
  chunks <> [] ->
  add_chunks normalize_row svc uuid4 chunks s = (Ok n, s', log) ->
  init (index_file s', meta_file s') = s'.
Proof.
  intros Hne. rewrite add_chunks_run by done. unfold add_outcome.
  destruct (embed_texts _ _) as [embeddings|e]; [|done].
  destruct (np_array embeddings) as [x|e]; [|done].
  destruct (Nat.eqb _ _); [|done]. by intros [= _ <- _].
Qed.

Lemma elem_of_list_documents s (x : string) :
  x ∈ list_documents s
  <-> x <> "" /\ exists doc, doc ∈ _documents s /\ source (doc_metadata doc) = Some x.
Proof.
  unfold list_documents. case_bool_decide as Hdocs.
  - rewrite Hdocs. split; [by intros ?%elem_of_nil|].
    by intros (_ & doc & ?%elem_of_nil & _).
  - rewrite merge_sort_Permutation, list_elem_of_omap. split.
    + intros (o & Ho & Hx). apply elem_of_remove_dups, list_elem_of_fmap in Ho.
      destruct Ho as (doc & -> & Hdoc). unfold truthy_source in Hx.
      destruct (source (doc_metadata doc)) as [y|] eqn:Hy; [|done].
      case_bool_decide; [done|]. injection Hx as ->. eauto.
    + intros (Hne & doc & Hdoc & Hx). exists (Some x). split.
      * apply elem_of_remove_dups, list_elem_of_fmap. eauto.
      * simpl. by rewrite bool_decide_eq_false_2.
Qed.

(** C8. When no document has the source [source_name],
    [delete_document] returns [False] and nothing changes: the index,
    the documents, both files and the statistics are as before, and the
    embedding service is not called. *)
Theorem delete_document_unknown_source svc (source_name : string) s :
  Forall (fun doc => source (doc_metadata doc) <> Some source_name) (_documents s) ->
  delete_document normalize_row svc source_name s = (Ok false, s, [])
  /\ get_collection_stats settings
       (delete_document normalize_row svc source_name s).1.2
     = get_collection_stats settings s.
Proof.
  intros Hall.
  assert (delete_document normalize_row svc source_name s = (Ok false, s, [])) as ->;
    [|done].
  rewrite delete_document_run. unfold delete_outcome.
  destruct (_index s); [|done]. destruct (_documents s) as [|doc docs] eqn:E; [done|].
  apply keep_other_sources_all in Hall. by rewrite Hall, Nat.eqb_refl.
Qed.

(** The stores of the class have an index whenever they have
    documents: [_load] sets the attributes so and every operation, with
    any embedding service, keeps them so. *)
Lemma init_has_index (files : option (IndexFlatIP F) * option (list Doc)) :
  has_index_if_documents (init files).
Proof. unfold init, _load. simpl. by destruct files.1, files.2. Qed.

Lemma apply_op_has_index (op : Op F) s :
  has_index_if_documents s ->
  has_index_if_documents (apply_op normalize_row s op).
Proof.
  unfold has_index_if_documents. intros Hs.
  destruct op as [svc uuid4 chunks|svc source_name|]; simpl; [| |done].
  - destruct chunks as [|c cs]; [done|].
    rewrite add_chunks_run by done. unfold add_outcome.
    destruct (embed_texts _ _) as [embeddings|e]; [|exact Hs].
    destruct (np_array embeddings) as [x|e]; [|exact Hs].
    destruct (Nat.eqb _ _); [done|exact Hs].
  - rewrite delete_document_run. unfold delete_outcome.
    destruct (_index s) as [idx|] eqn:Hidx; [|by intros _; apply Hs].
    destruct (_documents s) as [|doc docs] eqn:Hdocs; [simpl; congruence|].
    destruct (Nat.eqb _ _); [simpl; congruence|].
    destruct (keep_other_sources _ _) as [|doc' new_docs]; [done|].
    destruct (embed_texts _ _) as [embeddings|e]; [|simpl; congruence].
    destruct (np_array embeddings); [done|simpl; congruence].
Qed.

(** C9. On a store that has an index whenever it has documents: after
    [delete_document] has returned, [list_documents] does not contain the
    deleted source; and when every document of a non-empty store has that
    source, the call returns [True] and leaves the store as
    [reset_collection] does. *)
Theorem delete_document_then_list svc (source_name : string) s :
  has_index_if_documents s ->
  (forall found s' log,
     delete_document normalize_row svc source_name s = (Ok found, s', log) ->
     source_name ∉ list_documents s')
  /\ (_documents s <> [] ->
      Forall (fun doc => source (doc_metadata doc) = Some source_name) (_documents s) ->
      delete_document normalize_row svc source_name s
      = (Ok true, (reset_collection s).1.2, [])).
Proof.
  unfold has_index_if_documents. intros Hinit.
  rewrite delete_document_run. unfold delete_outcome. split.
  - intros found s' log.
    assert (forall t : VectorStoreService F,
      Forall (fun doc => source (doc_metadata doc) <> Some source_name) (_documents t) ->
      source_name ∉ list_documents t) as Hgone.
    { intros t Hall (_ & doc & Hdoc & Hsrc)%elem_of_list_documents.
      rewrite Forall_forall in Hall. by apply (Hall doc). }
    destruct (_index s) as [idx|] eqn:Hidx.
    + destruct (_documents s) as [|doc docs] eqn:Hdocs.
      { intros [= _ <- _]. apply Hgone. by rewrite Hdocs. }
      rewrite <- Hdocs.
      destruct (Nat.eqb _ _) eqn:Hlen.
      { intros [= _ <- _]. apply Hgone.
        by apply keep_other_sources_all, Nat.eqb_eq. }
      pose proof (keep_other_sources_sound source_name (_documents s)) as Hkeep.
      destruct (keep_other_sources source_name (_documents s)) as [|doc' new_docs].
      { intros [= _ <- _]. by apply Hgone. }
      destruct (embed_texts _ _) as [embeddings|e]; [|done].
      destruct (np_array embeddings) as [x|e]; [|done].
      intros [= _ <- _]. by apply Hgone.
    + intros [= _ <- _]. apply Hgone. by rewrite Hinit.
  - intros Hne Hall. destruct (_index s) as [idx|]; [|by rewrite Hinit in Hne].
    destruct (_documents s) as [|doc docs] eqn:Hdocs; [done|].
    rewrite (keep_other_sources_none _ _ Hall). reflexivity.
Qed.

(** *** The positional coupling of index and documents *)

Lemma new_records_text (uuid4 : nat -> string) chunks : forall i,
  doc_text <$> new_records uuid4 i chunks = text <$> chunks.
Proof.
  unfold new_records. induction chunks as [|c chunks IH]; intros i; [done|].
  rewrite imap_cons, !fmap_cons. cbn [doc_text]. f_equal.
  rewrite <- (IH (S i)). f_equal.
  apply imap_ext. intros j x _. simpl. by rewrite Nat.add_succ_r.
Qed.

Lemma coupled_empty_store : coupled normalize_row enc empty_store.
Proof. reflexivity. Qed.

Lemma coupled_has_index s :
  coupled normalize_row enc s -> has_index_if_documents s.
Proof.
  unfold coupled, vectors, has_index_if_documents. intros Hs Hnone.
  rewrite Hnone in Hs. symmetry in Hs. by apply fmap_nil_inv in Hs.
Qed.

Lemma add_chunks_coupled svc (uuid4 : nat -> string) chunks s :
  faithful enc svc -> coupled normalize_row enc s ->
  coupled normalize_row enc (add_chunks normalize_row svc uuid4 chunks s).1.2.
Proof.
  intros Hsvc Hs. destruct chunks as [|c cs]; [done|].
  rewrite add_chunks_run by done. unfold add_outcome.
  destruct (embed_texts _ _) as [embeddings|e] eqn:He; [|done].
  destruct (np_array embeddings) as [x|e] eqn:Hx; [|done].
  destruct (Nat.eqb _ _); [|done].
  apply np_array_shape in Hx as [-> _]. apply Hsvc in He as ->.
  unfold coupled in *. cbn [fst snd vectors _index _documents xb].
  fold (vectors s). rewrite Hs, fmap_app. f_equal.
  unfold vector_of. rewrite <- (new_records_text uuid4 (c :: cs) 0).
  by rewrite <- !list_fmap_compose.
Qed.

Lemma delete_document_coupled svc source_name s :
  faithful enc svc -> coupled normalize_row enc s ->
  coupled normalize_row enc (delete_document normalize_row svc source_name s).1.2.
Proof.
  intros Hsvc Hs. rewrite delete_document_run. unfold delete_outcome.
  destruct (_index s) as [idx|]; [|done].
  destruct (_documents s) as [|doc docs]; [done|].
  destruct (Nat.eqb _ _); [done|].
  destruct (keep_other_sources _ _) as [|doc' new_docs]; [done|].
  destruct (embed_texts _ _) as [embeddings|e] eqn:He; [|done].
  destruct (np_array embeddings) as [x|e] eqn:Hx; [|done].
  apply np_array_shape in Hx as [-> _]. apply Hsvc in He as ->.
  unfold coupled, vector_of. cbn [fst snd vectors _index _documents xb].
  by rewrite <- !list_fmap_compose.
Qed.

Lemma apply_op_coupled op s :
  op_faithful enc op -> coupled normalize_row enc s ->
  coupled normalize_row enc (apply_op normalize_row s op).
Proof.
  destruct op as [svc uuid4 chunks|svc source_name|]; simpl.
  - apply add_chunks_coupled.
  - apply delete_document_coupled.
  - done.
Qed.

Lemma run_ops_coupled (ops : list (Op F)) : forall s,
  Forall (op_faithful enc) ops -> coupled normalize_row enc s ->
  coupled normalize_row enc (run_ops normalize_row ops s).
Proof.
  unfold run_ops. induction ops as [|op ops IH]; intros s Hops Hs; [done|].
  apply Forall_cons in Hops as [Hop Hops]. simpl.
  by apply IH, apply_op_coupled.
Qed.

(** C1. Starting from a store in which the vectors of the index are
    those of the documents, position by position (the empty store is one),
    and with an embedding service that answers with the model's vectors,
    every sequence of [add_chunks], [delete_document] and
    [reset_collection], returning or raising, leaves such a store: the
    index holds as many vectors as there are documents, and the vector at
    position [i] is the one of the document at position [i]. *)
Theorem positional_coupling (ops : list (Op F)) s :
  coupled normalize_row enc s ->
  Forall (op_faithful enc) ops ->
  coupled normalize_row enc (run_ops normalize_row ops s)
  /\ vector_count settings (run_ops normalize_row ops s)
     = length (_documents (run_ops normalize_row ops s))
  /\ forall (i : nat) doc,
       _documents (run_ops normalize_row ops s) !! i = Some doc ->
       vectors (run_ops normalize_row ops s) !! i
       = Some (vector_of normalize_row enc doc).
Proof.
  intros Hs Hops. pose proof (run_ops_coupled ops s Hops Hs) as Hc.
  split; [done|]. rewrite vector_count_eq. unfold coupled in Hc. rewrite Hc.
  split; [by rewrite length_fmap|].
  intros i doc Hdoc. by rewrite list_lookup_fmap, Hdoc.
Qed.

(** *** Querying *)

Lemma format_results_omap (docs : list Doc) (hits : list (F * Z)) :
  format_results docs hits = omap (hit_record docs) hits.
Proof.
  induction hits as [|[dist idx] hits IH]; [done|].
  cbn [format_results omap list_omap]. unfold hit_record at 1. simpl.
  rewrite IH. destruct (Z.ltb_spec idx 0) as [Hneg|Hpos]; simpl; [done|].
  destruct (Z.leb_spec (Z.of_nat (length docs)) idx) as [Hge|Hlt].
  - rewrite (lookup_ge_None_2 docs (Z.to_nat idx)) by lia. done.
  - by destruct (docs !! Z.to_nat idx).
Qed.

Lemma format_results_length (docs : list Doc) (hits : list (F * Z)) :
  (length (format_results docs hits) <= length hits)%nat.
Proof.
  induction hits as [|[dist idx] hits IH]; simpl; [done|].
  destruct (_ || _); [lia|]. destruct (docs !! _); simpl; lia.
Qed.

Lemma format_results_Forall (P : F -> Prop) (docs : list Doc) (hits : list (F * Z)) :
  Forall (fun hit => P hit.1) hits ->
  Forall (fun r => P (distance r)) (format_results docs hits).
Proof.
  induction 1 as [|[dist idx] hits Hd _ IH]; simpl; [done|].
  destruct (_ || _); [done|]. destruct (docs !! _); [|done].
  by constructor.
Qed.

Lemma format_results_sorted (R : relation F) (docs : list Doc) (hits : list (F * Z)) :
  StronglySorted (fun a b => R a.1 b.1) hits ->
  StronglySorted (fun a b => R (distance a) (distance b)) (format_results docs hits).
Proof.
  induction 1 as [|[dist idx] hits _ IH Hd]; simpl; [constructor|].
  destruct (_ || _); [done|]. destruct (docs !! _); [|done].
  constructor; [done|]. by apply (format_results_Forall (R dist)).
Qed.

(** C4. On a store without index or with an empty index, [query]
    returns the empty list, without an error and without calling the
    embedding service. On any other store and for a positive [k], when the
    question is embedded and the search of FAISS returns at most the [k]
    hits it is asked for, by descending score, [query] returns at most
    [min(k, total_chunks)] results, by descending score: one for each hit
    whose position has a document, in the order of the hits, the other hits
    being skipped. *)
Theorem query_postcondition svc (question : string) s :
  (forall top_k, vector_count settings s = 0%nat ->
     query normalize_row index_search settings svc question top_k s
     = (Ok [], s, []))
  /\ (forall (k : Z) idx (qv : list F) (hits : list (F * Z)) (R : relation F),
        0 < k ->
        _index s = Some idx ->
        ntotal idx <> 0%nat ->
        embed_query svc question = Ok qv ->
        index_search idx (normalize_L2 normalize_row (mkArray (length qv) [qv]))
          (Z.min k (Z.of_nat (ntotal idx))) = Ok hits ->
        (length hits <= Z.to_nat (Z.min k (Z.of_nat (ntotal idx))))%nat ->
        StronglySorted (fun a b => R a.1 b.1) hits ->
        exists results,
          query normalize_row index_search settings svc question (Some k) s
          = (Ok results, s, [CallEmbedQuery question])
          /\ Z.of_nat (length results)
             <= Z.min k (Z.of_nat (total_chunks (get_collection_stats settings s)))
          /\ StronglySorted (fun a b => R (distance a) (distance b)) results
          /\ results = omap (hit_record (_documents s)) hits).
Proof.
  split.
  - intros top_k. rewrite vector_count_eq. unfold vectors, query. run.
    destruct (_index s) as [idx|]; [|done]. unfold ntotal.
    by intros ->.
  - intros k idx qv hits R Hk Hidx Hn Hq Hsearch Hlen Hsorted.
    exists (format_results (_documents s) hits).
    split; [|split; [|split]].
    + unfold query, top_k_or_default. run. rewrite Hidx.
      destruct (Z.eqb_spec k 0) as [->|_]; [lia|].
      destruct (Nat.eqb_spec (ntotal idx) 0) as [|_]; [done|].
      rewrite Hq. simpl. by rewrite Hsearch.
    + pose proof (format_results_length (_documents s) hits).
      simpl. rewrite Hidx. lia.
    + by apply format_results_sorted.
    + apply format_results_omap.
Qed.

End StoreFacts.

(** ** Properties of the answering orchestrator *)

Section LLMFacts.

Context {F : Type}.

Implicit Types (self : LLMService) (chunks : list (QueryResult F)).
Implicit Types (providers : list LLMProvider).

Lemma generate_answer_candidates self question chunks provider :
  chunks <> [] -> candidates self provider <> [] ->
  generate_answer self question chunks provider
  = try_providers (candidates self provider) (user_prompt_of chunks question)
      chunks None.
Proof.
  unfold generate_answer, candidates. intros Hc Hcand.
  destruct chunks as [|c cs]; [done|].
  destruct (requested provider) as [p|].
  - destruct (_providers self) as [|q qs] eqn:E; [done|].
    by destruct (filter _ (q :: qs)).
  - by destruct (_providers self).
Qed.

Lemma try_providers_success (up : string) chunks p rest (a : string) :
  forall failed last,
  Forall (fails up) failed ->
  generate p SYSTEM_PROMPT up = Ok a ->
  try_providers (failed ++ p :: rest) up chunks last
  = (Ok (mkAnswer a (res_text <$> chunks)), invocation up <$> (failed ++ [p])).
Proof.
  induction failed as [|q failed IH]; intros last Hfailed Hp; simpl.
  - by rewrite Hp.
  - apply Forall_cons in Hfailed as [[e He] Hfailed].
    by rewrite He, (IH (Some e)).
Qed.

Lemma try_providers_failure (up : string) chunks q (e : Exception) :
  forall front last,
  Forall (fails up) front ->
  generate q SYSTEM_PROMPT up = Raise e ->
  try_providers (front ++ [q]) up chunks last
  = (Raise (RuntimeError (all_failed e)), invocation up <$> (front ++ [q])).
Proof.
  induction front as [|r front IH]; intros last Hfront Hq; simpl.
  - by rewrite Hq.
  - apply Forall_cons in Hfront as [[e' He'] Hfront].
    by rewrite He', (IH (Some e')).
Qed.

Lemma providers_outcome (up : string) providers :
  providers <> [] ->
  (exists failed p rest (a : string),
     providers = failed ++ p :: rest
     /\ Forall (fails up) failed
     /\ generate p SYSTEM_PROMPT up = Ok a)
  \/ (exists front q (e : Exception),
        providers = front ++ [q]
        /\ Forall (fails up) front
        /\ generate q SYSTEM_PROMPT up = Raise e).
Proof.
  induction providers as [|q qs IH]; [done|]. intros _.
  destruct (generate q SYSTEM_PROMPT up) as [a|e] eqn:Hq.
  { left. by exists [], q, qs, a. }
  destruct qs as [|q' qs'].
  { right. by exists [], q, e. }
  destruct IH as [(failed & p & rest & a & -> & Hf & Hp)
                 |(front & r & e' & -> & Hf & Hr)]; [done| |].
  - left. exists (q :: failed), p, rest, a. repeat split; [|done].
    constructor; [by exists e|done].
  - right. exists (q :: front), r, e'. repeat split; [|done].
    constructor; [by exists e|done].
Qed.

Lemma filter_unknown_name (p : string) providers :
  p ∉ name <$> providers -> filter (fun q => name q = p) providers = [].
Proof.
  induction providers as [|q qs IH]; [done|].
  rewrite fmap_cons, not_elem_of_cons. intros [Hq Hqs].
  rewrite filter_cons, IH by done. by case_decide.
Qed.

(** C6. With no retrieved chunk, [generate_answer] returns the fixed
    answer with no reference, whatever the registry and the requested
    provider, and calls no provider. *)
Theorem generate_answer_no_context self (question : string) (provider : option string) :
  generate_answer (F := F) self question [] provider
  = (Ok (mkAnswer NO_DOCUMENTS_ANSWER []), []).
Proof. reflexivity. Qed.

(** C5. With retrieved chunks, [generate_answer] calls the candidates
    one after the other, in the order of the registry, each at most once.
    When the first candidates raise and the next one answers, the call
    returns that answer with the texts of the chunks, in their order, as
    references, and the candidates after it are not called. When every
    candidate raises, the call raises an error whose message ends with the
    message of the error of the last candidate. *)
Theorem generate_answer_fallback self (question : string) chunks
    (provider : option string) :
  chunks <> [] ->
  (forall failed p rest (a : string),
     candidates self provider = failed ++ p :: rest ->
     Forall (fails (user_prompt_of chunks question)) failed ->
     generate p SYSTEM_PROMPT (user_prompt_of chunks question) = Ok a ->
     generate_answer self question chunks provider
     = (Ok (mkAnswer a (res_text <$> chunks)),
        invocation (user_prompt_of chunks question) <$> (failed ++ [p])))
  /\ (forall front q (e : Exception),
        candidates self provider = front ++ [q] ->
        Forall (fails (user_prompt_of chunks question)) front ->
        generate q SYSTEM_PROMPT (user_prompt_of chunks question) = Raise e ->
        generate_answer self question chunks provider
        = (Raise (RuntimeError (all_failed e)),
           invocation (user_prompt_of chunks question) <$> candidates self provider))
  /\ (candidates self provider <> [] ->
      (exists failed p rest (a : string),
         candidates self provider = failed ++ p :: rest
         /\ Forall (fails (user_prompt_of chunks question)) failed
         /\ generate p SYSTEM_PROMPT (user_prompt_of chunks question) = Ok a)
      \/ (exists front q (e : Exception),
            candidates self provider = front ++ [q]
            /\ Forall (fails (user_prompt_of chunks question)) front
            /\ generate q SYSTEM_PROMPT (user_prompt_of chunks question) = Raise e)).
Proof.
  intros Hc. split; [|split; [|apply providers_outcome]].
  - intros failed p rest a Hcand Hfailed Hp.
    rewrite generate_answer_candidates, Hcand; [|done|].
    + by apply try_providers_success.
    + rewrite Hcand. by destruct failed.
  - intros front q e Hcand Hfront Hq.
    rewrite generate_answer_candidates, Hcand; [|done|].
    + by apply try_providers_failure.
    + rewrite Hcand. by destruct front.
Qed.

(** C7. With retrieved chunks: when the registry is empty,
    [generate_answer] raises the configuration error, whether or not a
    provider is requested; when the registry is not empty and a requested
    name, not the empty string, is the name of none of its providers,
    [generate_answer] raises the error that names it. No provider is
    called in either case. *)
Theorem generate_answer_configuration_errors self (question : string) chunks
    (provider : option string) :
  chunks <> [] ->
  (_providers self = [] ->
   generate_answer self question chunks provider
   = (Raise (RuntimeError NOT_CONFIGURED), []))
  /\ (forall p : string,
        _providers self <> [] ->
        provider = Some p ->
        p <> "" ->
        p ∉ name <$> _providers self ->
        generate_answer self question chunks provider
        = (Raise (RuntimeError (not_available p)), [])).
Proof.
  intros Hc. destruct chunks as [|c cs]; [done|]. split.
  - intros Hnone. unfold generate_answer. by rewrite Hnone.
  - intros p Hsome -> Hp Hnot. unfold generate_answer, requested.
    destruct (_providers self) as [|q qs] eqn:E; [done|].
    rewrite bool_decide_eq_false_2 by done.
    by rewrite filter_unknown_name.
Qed.

End LLMFacts.

(** ** Further properties of the vector index store *)

Section StoreMore.

Context {F : Type}.
Variable normalize_row : list F -> list F.
Variable index_search : IndexFlatIP F -> ndarray F -> Z -> Exc (list (F * Z)).
Variable settings : Settings.

Implicit Types (s : VectorStoreService F) (svc : EmbeddingService F).
Implicit Types (chunks : list DocumentChunk).

(** *** Restarting *)

Lemma init_restart_stable (files : option (IndexFlatIP F) * option (list Doc)) :
  restart_stable (init files).
Proof. destruct files as [[i|] [ds|]]; reflexivity. Qed.

Lemma apply_op_restart_stable (op : Op F) s :
  restart_stable s -> restart_stable (apply_op normalize_row s op).
Proof.
  intros Hs. destruct op as [svc uuid4 chunks|svc source_name|]; simpl; [| |done].
  - destruct chunks as [|c cs]; [done|].
    rewrite add_chunks_run by done. unfold add_outcome.
    destruct (embed_texts _ _) as [embeddings|e]; [|done].
    destruct (np_array embeddings) as [x|e]; [|done].
    by destruct (Nat.eqb _ _).
  - rewrite delete_document_run. unfold delete_outcome.
    destruct (_index s) as [idx|]; [|done].
    destruct (_documents s) as [|doc docs]; [done|].
    destruct (Nat.eqb _ _); [done|].
    destruct (keep_other_sources _ _) as [|doc' new_docs]; [done|].
    destruct (embed_texts _ _) as [embeddings|e]; [|done].
    by destruct (np_array embeddings).
Qed.

(** X1. Whatever files a process starts on and whatever operations it
    runs, returning or raising, a process started afterwards on the files
    it leaves has the same index and the same documents. *)
Theorem restart_after_any_session
    (files : option (IndexFlatIP F) * option (list Doc)) (ops : list (Op F)) :
  restart_stable (run_ops normalize_row ops (init files)).
Proof.
  unfold run_ops. generalize (init_restart_stable files).
  generalize (init files). induction ops as [|op ops IH]; intros s Hs; [done|].
  simpl. by apply IH, apply_op_restart_stable.
Qed.

(** *** Listing *)

#[local] Instance str_le_total : Total str_le.
Proof. intros a b. apply String.leb_total. Qed.

Lemma truthy_source_Some (o : option string) (x : string) :
  truthy_source o = Some x <-> o = Some x /\ x <> "".
Proof.
  unfold truthy_source. destruct o as [y|]; [|by split; [|intros [? _]]].
  case_bool_decide as Hy; split.
  - done.
  - intros [[= ->] Hx]. done.
  - intros [= ->]. done.
  - by intros [[= ->] _].
Qed.

Lemma NoDup_omap_truthy_source (l : list (option string)) :
  NoDup l -> NoDup (omap truthy_source l).
Proof.
  induction 1 as [|o l Ho _ IH]; [constructor|]. simpl.
  destruct (truthy_source o) as [x|] eqn:Hx; [|done].
  constructor; [|done]. intros (o' & Ho' & Hx')%list_elem_of_omap.
  apply truthy_source_Some in Hx as [-> _].
  apply truthy_source_Some in Hx' as [-> _]. done.
Qed.

Lemma length_omap_le {A B} (f : A -> option B) (l : list A) :
  (length (omap f l) <= length l)%nat.
Proof.
  induction l as [|a l IH]; simpl; [done|].
  destruct (f a); simpl; [apply le_n_S|apply Nat.le_le_succ_r]; exact IH.
Qed.

Lemma length_remove_dups_le `{EqDecision A} (l : list A) :
  (length (remove_dups l) <= length l)%nat.
Proof.
  induction l as [|a l IH]; simpl; [done|].
  destruct (decide_rel elem_of a l); simpl;
    [apply Nat.le_le_succ_r|apply le_n_S]; exact IH.
Qed.

(** X2. [list_documents] returns the sources of the documents, the empty
    string left out, each once, in ascending order. *)
Theorem list_documents_sorted_unique s :
  Sorted str_le (list_documents s)
  /\ NoDup (list_documents s)
  /\ forall x : string,
       x ∈ list_documents s
       <-> x <> "" /\ exists doc, doc ∈ _documents s /\ from_source x doc.
Proof.
  split; [|split].
  - unfold list_documents. case_bool_decide; [constructor|].
    apply (Sorted_merge_sort str_le).
  - unfold list_documents. case_bool_decide; [constructor|].
    rewrite merge_sort_Permutation.
    apply NoDup_omap_truthy_source, NoDup_remove_dups.
  - apply elem_of_list_documents.
Qed.

(** X3. The statistics never count more documents than the store has
    records; and where the index holds one vector per record, never more
    than [total_chunks]. *)
Theorem total_documents_bounded s :
  (total_documents (get_collection_stats settings s) <= length (_documents s))%nat
  /\ (vector_count settings s = length (_documents s) ->
      (total_documents (get_collection_stats settings s)
       <= total_chunks (get_collection_stats settings s))%nat).
Proof.
  assert (length (list_documents s) <= length (_documents s))%nat as Hle.
  { unfold list_documents. case_bool_decide; [simpl; lia|].
    rewrite merge_sort_Permutation.
    etrans; [apply length_omap_le|]. etrans; [apply length_remove_dups_le|].
    by rewrite length_fmap. }
  split; [exact Hle|]. unfold vector_count. intros ->. exact Hle.
Qed.

Lemma list_documents_app_docs s s' (extra : list Doc) :
  _documents s' = _documents s ++ extra ->
  forall x : string,
    x ∈ list_documents s'
    <-> x ∈ list_documents s \/ (x <> "" /\ exists doc, doc ∈ extra /\ from_source x doc).
Proof.
  intros Hdocs x. rewrite !elem_of_list_documents, Hdocs. split.
  - intros (Hx & doc & [Hdoc|Hdoc]%elem_of_app & Hsrc); [left|right]; eauto.
  - intros [(Hx & doc & Hdoc & Hsrc)|(Hx & doc & Hdoc & Hsrc)];
      (split; [done|]); exists doc; (split; [|done]);
      apply elem_of_app; eauto.
Qed.

(** X4. After an [add_chunks] that returned, [list_documents] lists what
    it listed before and the non-empty sources of the chunks of the batch,
    and nothing else. *)
Theorem add_chunks_then_list svc (uuid4 : nat -> string) chunks s
    (n : nat) s' (log : list Call) :
  add_chunks normalize_row svc uuid4 chunks s = (Ok n, s', log) ->
  forall x : string,
    x ∈ list_documents s'
    <-> x ∈ list_documents s
        \/ (x <> "" /\ exists c, c ∈ chunks /\ source (metadata c) = Some x).
Proof.
  destruct chunks as [|c cs].
  { intros [= _ <- _] x. split; [by left|].
    by intros [?|(_ & c & ?%elem_of_nil & _)]. }
  rewrite add_chunks_run by done. unfold add_outcome.
  destruct (embed_texts _ _) as [embeddings|e]; [|done].
  destruct (np_array embeddings) as [x|e]; [|done].
  destruct (Nat.eqb _ _); [|done]. intros [= _ <- _] y.
  etrans;
    [apply (list_documents_app_docs s _ (new_records uuid4 0 (c :: cs)));
     reflexivity|].
  apply or_iff_compat_l, and_iff_compat_l. unfold new_records. split.
  - intros (doc & Hdoc & Hsrc). apply list_elem_of_lookup in Hdoc as [j Hj].
    apply list_lookup_imap_Some in Hj as (c' & Hc' & ->).
    exists c'. split; [|done]. by apply list_elem_of_lookup_2 in Hc'.
  - intros (c' & Hc' & Hsrc). apply list_elem_of_lookup in Hc' as [j Hj].
    exists (mkDoc (uuid4 (0 + j)%nat) (text c') (metadata c')). split; [|done].
    apply list_elem_of_lookup. exists j. by rewrite list_lookup_imap, Hj.
Qed.

(** *** Deleting *)

Lemma keep_other_sources_from_source source_name (docs : list Doc) :
  keep_other_sources source_name docs
  = filter (fun doc => ~ from_source source_name doc) docs.
Proof. apply keep_other_sources_filter. Qed.

Lemma keep_other_sources_shorter source_name (docs : list Doc) :
  Nat.eqb (length (keep_other_sources source_name docs)) (length docs) = false ->
  exists doc, doc ∈ docs /\ from_source source_name doc.
Proof.
  intros Hlen%Nat.eqb_neq. rewrite keep_other_sources_all in Hlen.
  apply not_Forall_Exists in Hlen; [|apply _].
  apply Exists_exists in Hlen as (doc & Hdoc & Hsrc). exists doc. split; [done|].
  unfold from_source. simpl in Hsrc.
  by destruct (decide (source (doc_metadata doc) = Some source_name)).
Qed.

(** What a [delete_document] that returned has done, in the terms of
    its own loop. *)
Lemma delete_document_returned svc (source_name : string) s
    (found : bool) s' (log : list Call) :
  has_index_if_documents s ->
  delete_document normalize_row svc source_name s = (Ok found, s', log) ->
  _documents s' = keep_other_sources source_name (_documents s)
  /\ found
     = negb (Nat.eqb (length (keep_other_sources source_name (_documents s)))
               (length (_documents s))).
Proof.
  unfold has_index_if_documents. intros Hinit.
  rewrite delete_document_run. unfold delete_outcome.
  destruct (_index s) as [idx|] eqn:Hidx.
  - destruct (_documents s) as [|doc docs] eqn:Hdocs.
    { intros [= <- <- _]. by rewrite Hdocs. }
    rewrite <- Hdocs. destruct (Nat.eqb _ _) eqn:Hlen.
    { intros [= <- <- _]. apply Nat.eqb_eq, keep_other_sources_all in Hlen.
      by rewrite keep_other_sources_id. }
    destruct (keep_other_sources source_name (_documents s)) as [|doc' new_docs].
    { by intros [= <- <- _]. }
    destruct (embed_texts _ _) as [embeddings|e]; [|done].
    destruct (np_array embeddings) as [x|e]; [|done].
    by intros [= <- <- _].
  - intros [= <- <- _]. by rewrite (Hinit eq_refl).
Qed.

(** X5. On a store that has an index whenever it has documents, a
    [delete_document] that returns leaves exactly the documents of the
    other sources, unchanged and in their order, and returns [True]
    exactly when some document had the source. *)
Theorem delete_document_keeps_other_sources svc (source_name : string) s
    (found : bool) s' (log : list Call) :
  has_index_if_documents s ->
  delete_document normalize_row svc source_name s = (Ok found, s', log) ->
  _documents s' = filter (fun doc => ~ from_source source_name doc) (_documents s)
  /\ (found = true <-> exists doc, doc ∈ _documents s /\ from_source source_name doc).
Proof.
  intros Hinit Hdel.
  destruct (delete_document_returned _ _ _ _ _ _ Hinit Hdel) as [-> ->].
  split; [apply keep_other_sources_from_source|].
  rewrite negb_true_iff. split; [apply keep_other_sources_shorter|].
  intros (doc & Hdoc & Hsrc). apply Nat.eqb_neq.
  rewrite keep_other_sources_all, Forall_forall. intros Hall.
  by apply (Hall doc Hdoc).
Qed.

(** X6. Deleting is idempotent: after a [delete_document] that returned,
    a second one for the same source returns [False], changes nothing and
    does not call the embedding service, whatever that service does. *)
Theorem delete_document_twice svc svc' (source_name : string) s
    (found : bool) s' (log : list Call) :
  has_index_if_documents s ->
  delete_document normalize_row svc source_name s = (Ok found, s', log) ->
  delete_document normalize_row svc' source_name s' = (Ok false, s', []).
Proof.
  intros Hinit Hdel.
  destruct (delete_document_returned _ _ _ _ _ _ Hinit Hdel) as [Hdocs _].
  rewrite keep_other_sources_from_source in Hdocs.
  rewrite delete_document_run. unfold delete_outcome.
  destruct (_index s'); [|done]. destruct (_documents s') as [|d' ds'] eqn:E; [done|].
  assert (Forall (fun doc => source (doc_metadata doc) <> Some source_name) (d' :: ds'))
    as Hall.
  { rewrite Hdocs. apply Forall_forall. intros doc Hdoc.
    by apply list_elem_of_filter in Hdoc as [? _]. }
  apply keep_other_sources_all in Hall. by rewrite Hall, Nat.eqb_refl.
Qed.

(** X7. After a [delete_document] that returned, [list_documents] lists
    what it listed before, the deleted source left out: the other sources
    stay listed. *)
Theorem delete_document_list_others svc (source_name : string) s
    (found : bool) s' (log : list Call) :
  has_index_if_documents s ->
  delete_document normalize_row svc source_name s = (Ok found, s', log) ->
  forall x : string,
    x ∈ list_documents s' <-> x ∈ list_documents s /\ x <> source_name.
Proof.
  intros Hinit Hdel x.
  destruct (delete_document_returned _ _ _ _ _ _ Hinit Hdel) as [Hdocs _].
  rewrite keep_other_sources_from_source in Hdocs.
  rewrite !elem_of_list_documents, Hdocs. unfold from_source. split.
  - intros (Hx & doc & [Hsrc Hdoc]%list_elem_of_filter & Hdx).
    split; [eauto|]. intros ->. by apply Hsrc.
  - intros [(Hx & doc & Hdoc & Hdx) Hne]. split; [done|]. exists doc.
    split; [|done]. apply list_elem_of_filter. split; [|done].
    unfold from_source. rewrite Hdx. by intros [= ->].
Qed.

(** X8. A [delete_document] that raises has changed nothing, in memory
    or on disk: the exception is the one of the embedding of the texts of
    the documents that would stay, or of their conversion to an array, and
    it is raised before any attribute is assigned. *)
Theorem delete_document_failure svc (source_name : string) s
    (e : Exception) s' (log : list Call) :
  delete_document normalize_row svc source_name s = (Raise e, s', log) ->
  s' = s
  /\ log = [CallEmbedTexts (doc_text <$> keep_other_sources source_name (_documents s))]
  /\ (embed_texts svc (doc_text <$> keep_other_sources source_name (_documents s))
      = Raise e
      \/ exists embeddings,
           embed_texts svc (doc_text <$> keep_other_sources source_name (_documents s))
           = Ok embeddings
           /\ np_array embeddings = Raise e).
Proof.
  rewrite delete_document_run. unfold delete_outcome.
  destruct (_index s) as [idx|]; [|done].
  destruct (_documents s) as [|doc docs]; [done|].
  destruct (Nat.eqb _ _); [done|].
  destruct (keep_other_sources _ _) as [|doc' new_docs]; [done|].
  destruct (embed_texts _ _) as [embeddings|e'] eqn:He.
  - destruct (np_array embeddings) as [x|e''] eqn:Hx; [done|].
    intros [= <- <- <-]. repeat split. right. eauto.
  - intros [= <- <- <-]. repeat split. by left.
Qed.

(** *** Querying *)

(** X9. [query] only reads: whether it returns or raises, the store is
    as before the call; and every result carries the text and the metadata
    of a document of the store. *)
Theorem query_reads_only svc (question : string) (top_k : option Z) s :
  (query normalize_row index_search settings svc question top_k s).1.2 = s
  /\ forall results,
       (query normalize_row index_search settings svc question top_k s).1.1
       = Ok results ->
       Forall (fun r => exists doc, doc ∈ _documents s /\ result_of doc r) results.
Proof.
  assert (forall hits : list (F * Z),
    Forall (fun r => exists doc, doc ∈ _documents s /\ result_of doc r)
      (format_results (_documents s) hits)) as Hfmt.
  { induction hits as [|[dist idx] hits IH]; simpl; [constructor|].
    destruct (_ || _); [done|].
    destruct (_documents s !! Z.to_nat idx) as [doc|] eqn:Hdoc; [|done].
    constructor; [|done]. exists doc. split; [|done].
    by apply list_elem_of_lookup_2 in Hdoc. }
  unfold query. run. destruct (_index s) as [idx|]; [|split; [done|]].
  - destruct (Nat.eqb _ _).
    { split; [done|]. intros results [= <-]. constructor. }
    destruct (embed_query svc question) as [qv|e]; [|by split]. simpl.
    destruct (index_search _ _ _) as [hits|e]; [|by split]. simpl.
    split; [done|]. intros results [= <-]. apply Hfmt.
  - intros results [= <-]. constructor.
Qed.

(** X10. Where the store has one document per vector and the search
    returns positions of the index only, [query] skips nothing: it returns
    one result per hit, in the order of the hits, with the score of the
    hit and the text and metadata of the document at its position. *)
Theorem query_one_result_per_hit svc (question : string) s
    (k : Z) idx (qv : list F) (hits : list (F * Z)) :
  0 < k ->
  _index s = Some idx ->
  ntotal idx <> 0%nat ->
  length (_documents s) = ntotal idx ->
  embed_query svc question = Ok qv ->
  index_search idx (normalize_L2 normalize_row (mkArray (length qv) [qv]))
    (Z.min k (Z.of_nat (ntotal idx))) = Ok hits ->
  Forall (fun hit => 0 <= hit.2 < Z.of_nat (ntotal idx)) hits ->
  exists results,
    query normalize_row index_search settings svc question (Some k) s
    = (Ok results, s, [CallEmbedQuery question])
    /\ length results = length hits
    /\ forall (j : nat) hit,
         hits !! j = Some hit ->
         exists doc,
           _documents s !! Z.to_nat hit.2 = Some doc
           /\ results !! j = Some (mkResult (doc_text doc) (doc_metadata doc) hit.1).
Proof.
  intros Hk Hidx Hn Hlen Hq Hsearch Hhits.
  exists (format_results (_documents s) hits). split.
  { unfold query, top_k_or_default. run. rewrite Hidx.
    destruct (Z.eqb_spec k 0) as [->|_]; [lia|].
    destruct (Nat.eqb_spec (ntotal idx) 0) as [|_]; [done|].
    rewrite Hq. simpl. by rewrite Hsearch. }
  rewrite <- Hlen in Hhits. clear Hsearch.
  induction Hhits as [|[dist i] hits [Hlo Hhi] _ [IHlen IH]]; [by split|].
  simpl in Hlo, Hhi. simpl.
  destruct (Z.ltb_spec i 0) as [|_]; [lia|].
  destruct (Z.leb_spec (Z.of_nat (length (_documents s))) i) as [|_]; [lia|].
  simpl. destruct (lookup_lt_is_Some_2 (_documents s) (Z.to_nat i)) as [doc Hdoc];
    [lia|].
  rewrite Hdoc. split; [simpl; by rewrite IHlen|].
  intros [|j] hit; simpl.
  - intros [= <-]. by exists doc.
  - apply IH.
Qed.

End StoreMore.

(** ** Further properties of the answering orchestrator *)

Section LLMMore.

Context {F : Type}.

Implicit Types (self : LLMService) (chunks : list (QueryResult F)).
Implicit Types (providers : list LLMProvider).

Lemma try_providers_prefix (up : string) chunks providers :
  forall last, exists n : nat,
    (try_providers providers up chunks last).2 = invocation up <$> take n providers.
Proof.
  induction providers as [|p ps IH]; intros last; [by exists 0%nat|]. simpl.
  destruct (generate p SYSTEM_PROMPT up) as [a|e]; [by exists 1%nat|].
  destruct (IH (Some e)) as [n Hn]. exists (S n).
  destruct (try_providers ps up chunks (Some e)) as [r invs]. simpl in *.
  by rewrite Hn.
Qed.

Lemma try_providers_log_elem (up : string) chunks providers (inv : Invocation) :
  forall last,
    inv ∈ (try_providers providers up chunks last).2 ->
    exists p, p ∈ providers /\ inv = invocation up p.
Proof.
  intros last Hinv. destruct (try_providers_prefix up chunks providers last) as [n Hn].
  rewrite Hn in Hinv. apply list_elem_of_fmap in Hinv as (p & -> & Hp).
  exists p. split; [|done]. apply elem_of_take in Hp as (i & Hi & _).
  by apply list_elem_of_lookup_2 in Hi.
Qed.

(** What [generate_answer] does once the candidates are known. *)
Lemma generate_answer_cases self (question : string) chunks (provider : option string) :
  generate_answer self question chunks provider
  = match chunks with
    | [] => (Ok (mkAnswer NO_DOCUMENTS_ANSWER []), [])
    | _ :: _ =>
        match _providers self with
        | [] => (Raise (RuntimeError NOT_CONFIGURED), [])
        | _ :: _ =>
            match candidates self provider with
            | [] => (Raise (RuntimeError (not_available (default "" (requested provider)))), [])
            | cands => try_providers cands (user_prompt_of chunks question) chunks None
            end
        end
    end.
Proof.
  unfold generate_answer, candidates. destruct chunks as [|c cs]; [done|].
  destruct (_providers self) as [|q qs] eqn:E; [done|].
  destruct (requested provider) as [p|]; [|done]. simpl.
  by destruct (filter _ (q :: qs)).
Qed.

Lemma generate_answer_log_elem self (question : string) chunks
    (provider : option string) (inv : Invocation) :
  inv ∈ (generate_answer self question chunks provider).2 ->
  exists p, p ∈ candidates self provider
            /\ inv = invocation (user_prompt_of chunks question) p.
Proof.
  rewrite generate_answer_cases. destruct chunks as [|c cs]; [by intros ?%elem_of_nil|].
  destruct (_providers self) as [|q qs]; [by intros ?%elem_of_nil|].
  destruct (candidates self provider) as [|p ps] eqn:E; [by intros ?%elem_of_nil|].
  apply try_providers_log_elem.
Qed.

(** X11. [generate_answer] calls providers in the order of the
    candidates, without skipping or repeating one: the calls it makes are
    those of an initial segment of the candidates, each with the system
    prompt and the prompt built from the chunks and the question. *)
Theorem generate_answer_calls_in_order self (question : string) chunks
    (provider : option string) :
  exists n : nat,
    (generate_answer self question chunks provider).2
    = invocation (user_prompt_of chunks question)
        <$> take n (candidates self provider).
Proof.
  rewrite generate_answer_cases. destruct chunks as [|c cs]; [by exists 0%nat|].
  destruct (_providers self) as [|q qs]; [by exists 0%nat|].
  destruct (candidates self provider) as [|p ps] eqn:E; [by exists 0%nat|].
  apply try_providers_prefix.
Qed.

(** X12. With a requested provider there is no fallback: every call
    [generate_answer] makes goes to a provider of the requested name. *)
Theorem generate_answer_no_fallback_when_requested self (question : string)
    chunks (p : string) :
  p <> "" ->
  Forall (fun inv => inv_provider inv = p)
    (generate_answer self question chunks (Some p)).2.
Proof.
  intros Hp. apply Forall_forall. intros inv Hinv.
  apply generate_answer_log_elem in Hinv as (q & Hq & ->).
  unfold candidates, requested in Hq. rewrite bool_decide_eq_false_2 in Hq by done.
  by apply list_elem_of_filter in Hq as [? _].
Qed.

(** X13. A provider whose API key is not set is never called by the
    service [LLMService()] builds. *)
Theorem unconfigured_provider_never_called (st : ServiceSettings)
    (gemini_generate openai_generate : string -> string -> Exc string)
    (question : string) chunks (provider : option string) :
  (gemini_api_key st = "" ->
   Forall (fun inv => inv_provider inv <> "gemini")
     (generate_answer (LLMService_init st gemini_generate openai_generate)
        question chunks provider).2)
  /\ (openai_api_key st = "" ->
      Forall (fun inv => inv_provider inv <> "openai")
        (generate_answer (LLMService_init st gemini_generate openai_generate)
           question chunks provider).2).
Proof.
  assert (forall inv,
    inv ∈ (generate_answer (LLMService_init st gemini_generate openai_generate)
             question chunks provider).2 ->
    exists q, q ∈ [GeminiProvider st gemini_generate; OpenAIProvider st openai_generate]
              /\ is_available q = true /\ inv_provider inv = name q) as Hlog.
  { intros inv (q & Hq & ->)%generate_answer_log_elem. exists q.
    assert (q ∈ _providers (LLMService_init st gemini_generate openai_generate)) as Hreg.
    { unfold candidates in Hq. destruct (requested provider); [|done].
      by apply list_elem_of_filter in Hq as [_ ?]. }
    unfold LLMService_init, _init_providers in Hreg. cbn [_providers] in Hreg.
    apply list_elem_of_In, List.filter_In in Hreg as [Hin Hav].
    by apply list_elem_of_In in Hin. }
  split; intros Hkey; apply Forall_forall; intros inv Hinv;
    destruct (Hlog inv Hinv) as (q & Hq & Hav & ->);
    apply elem_of_cons in Hq as [->|Hq%list_elem_of_singleton].
  - simpl in Hav. unfold str_truthy in Hav. by rewrite Hkey in Hav.
  - by rewrite Hq.
  - done.
  - rewrite Hq in Hav. simpl in Hav. unfold str_truthy in Hav.
    by rewrite Hkey in Hav.
Qed.

(** X14. No exception of a provider leaves [generate_answer]: what it
    raises is a [RuntimeError], with the configuration message, the
    message that names the requested provider, or the message that quotes
    the error of a candidate that raised. *)
Theorem generate_answer_raises_runtime_errors self (question : string) chunks
    (provider : option string) (e : Exception) :
  (generate_answer self question chunks provider).1 = Raise e ->
  exc_class e = "RuntimeError"
  /\ (exc_msg e = NOT_CONFIGURED
      \/ (exists p, requested provider = Some p /\ exc_msg e = not_available p)
      \/ exists q (cause : Exception),
           q ∈ candidates self provider
           /\ generate q SYSTEM_PROMPT (user_prompt_of chunks question) = Raise cause
           /\ exc_msg e = all_failed cause).
Proof.
  rewrite generate_answer_cases. destruct chunks as [|c cs]; [done|].
  destruct (_providers self) as [|q0 qs] eqn:Hreg.
  { intros [= <-]. by split; [|left]. }
  destruct (candidates self provider) as [|p ps] eqn:Hcand.
  { intros [= <-]. split; [done|]. right. left.
    unfold candidates in Hcand. destruct (requested provider) as [r|]; [|congruence].
    by exists r. }
  generalize (user_prompt_of (c :: cs) question). intros up.
  assert (forall providers last,
    providers <> [] ->
    (try_providers providers up (c :: cs) last).1 = Raise e ->
    exists q cause, q ∈ providers /\ generate q SYSTEM_PROMPT up = Raise cause
                    /\ e = RuntimeError (all_failed cause)) as Hloop.
  { induction providers as [|q providers IH]; intros last Hne; [done|]. simpl.
    destruct (generate q SYSTEM_PROMPT up) as [a|cause] eqn:Hq; [done|].
    destruct providers as [|q' providers].
    - simpl. intros [= <-]. exists q, cause. split; [apply list_elem_of_here|done].
    - specialize (IH (Some cause) ltac:(done)).
      destruct (try_providers (q' :: providers) up (c :: cs) (Some cause)) as [r invs].
      simpl in *. intros Hr. destruct (IH Hr) as (q'' & cause' & Hin & Hgen & ->).
      exists q'', cause'. split; [by apply list_elem_of_further|done]. }
  intros Hr. destruct (Hloop (p :: ps) None ltac:(done) Hr) as (q & cause & Hq & Hgen & ->).
  split; [done|]. right. right. by exists q, cause.
Qed.

(** X15. An answer of [generate_answer] on retrieved chunks is never its
    own: it is the text a candidate returned on the prompt, and the
    references are the texts of the chunks, in their order. *)
Theorem generate_answer_answer_provenance self (question : string) chunks
    (provider : option string) (a : Answer) :
  chunks <> [] ->
  (generate_answer self question chunks provider).1 = Ok a ->
  references a = res_text <$> chunks
  /\ exists q, q ∈ candidates self provider
               /\ generate q SYSTEM_PROMPT (user_prompt_of chunks question)
                  = Ok (answer a).
Proof.
  intros Hne. rewrite generate_answer_cases. destruct chunks as [|c cs]; [done|].
  destruct (_providers self) as [|q0 qs]; [done|].
  destruct (candidates self provider) as [|p ps]; [done|].
  generalize (user_prompt_of (c :: cs) question) (@None Exception). intros up.
  induction (p :: ps) as [|q providers IH]; intros last; [done|]. simpl.
  destruct (generate q SYSTEM_PROMPT up) as [t|cause] eqn:Hq.
  - simpl. intros [= <-]. split; [done|]. exists q. split; [apply list_elem_of_here|done].
  - specialize (IH (Some cause)).
    destruct (try_providers providers up (c :: cs) (Some cause)) as [r invs].
    simpl in *. intros Hr. destruct (IH Hr) as (Hrefs & q' & Hin & Hgen).
    split; [done|]. exists q'. split; [by apply list_elem_of_further|done].
Qed.

End LLMMore.

(** ** Properties of the PDF processor *)

Section PDFMore.

Variable strip : string -> string.
Variable pdfplumber_open : string -> Exc (list (Exc (option string))).
Variable RecursiveCharacterTextSplitter : Z -> Z -> Exc (string -> list string).

Implicit Types (self : PDFProcessor) (pages : list PageData).

Lemma enumerate_chunks_imap (p : PageData) (pieces : list string) :
  forall (i : nat) (chunks : list DocumentChunk),
    enumerate_chunks p i pieces chunks
    = chunks
        ++ imap (fun j t =>
                   mkChunk t (mkMeta (Some (page_source p)) (Some (page_number p))
                                (Some (Z.of_nat (i + j)))))
             pieces.
Proof.
  induction pieces as [|t pieces IH]; intros i chunks; simpl.
  - by rewrite app_nil_r.
  - rewrite IH, <- app_assoc. simpl. rewrite Nat.add_0_r. do 2 f_equal.
    apply imap_ext. intros j x _. simpl. by rewrite Nat.add_succ_r.
Qed.

Lemma chunk_pages_bind (split_text : string -> list string) pages :
  forall chunks : list DocumentChunk,
    chunk_pages split_text pages chunks
    = chunks ++ (pages ≫= page_chunks_of split_text).
Proof.
  induction pages as [|p pages IH]; intros chunks; simpl.
  - by rewrite app_nil_r.
  - rewrite IH, enumerate_chunks_imap, <- app_assoc. done.
Qed.

(** X17. [chunk_text] loses, adds and reorders nothing: the texts of the
    chunks are the pieces the splitter makes of the first page, then those
    of the second page, and so on. An empty list of pages gives no
    chunk. *)
Theorem chunk_text_texts self pages :
  text <$> chunk_text self pages
  = pages ≫= (fun p => text_splitter self (page_text p)).
Proof.
  unfold chunk_text. rewrite chunk_pages_bind. simpl.
  induction pages as [|p pages IH]; [done|].
  rewrite !bind_cons, fmap_app, IH. f_equal. unfold page_chunks_of.
  generalize (text_splitter self (page_text p)). intros pieces.
  apply list_eq. intros j. rewrite list_lookup_fmap, list_lookup_imap.
  by destruct (pieces !! j).
Qed.

(** X18. Every chunk of [chunk_text] carries the source and the number
    of the page it was cut from, and as [chunk_index] its position among
    the pieces of that page, counted from 0; the three keys are always
    there. *)
Theorem chunk_text_metadata self pages (c : DocumentChunk) :
  c ∈ chunk_text self pages ->
  exists (p : PageData) (i : nat),
    p ∈ pages
    /\ text_splitter self (page_text p) !! i = Some (text c)
    /\ metadata c
       = mkMeta (Some (page_source p)) (Some (page_number p)) (Some (Z.of_nat i)).
Proof.
  unfold chunk_text. rewrite chunk_pages_bind. simpl.
  intros (p & Hc & Hp)%list_elem_of_bind. exists p.
  apply list_elem_of_lookup in Hc as [i Hi]. unfold page_chunks_of in Hi.
  apply list_lookup_imap_Some in Hi as (t & Ht & ->). by exists i.
Qed.

Lemma extract_pages_spec (filename : string) (pdf_pages : list (Exc (option string))) :
  forall (page_num : Z) (acc pages : list PageData),
    extract_pages strip filename page_num pdf_pages acc = Ok pages ->
    exists new : list PageData,
      pages = acc ++ new
      /\ Forall (fun p => page_source p = filename
                          /\ page_text p <> ""
                          /\ page_num <= page_number p
                             < page_num + Z.of_nat (length pdf_pages)) new
      /\ StronglySorted Z.lt (page_number <$> new).
Proof.
  induction pdf_pages as [|[text|e] rest IH]; intros page_num acc pages; simpl.
  - intros [= <-]. exists []. rewrite app_nil_r. repeat split; constructor.
  - assert (forall acc',
      extract_pages strip filename (page_num + 1) rest acc' = Ok pages ->
      exists new,
        pages = acc' ++ new
        /\ Forall (fun p => page_source p = filename /\ page_text p <> ""
                            /\ page_num + 1 <= page_number p
                               < page_num + Z.of_nat (S (length rest))) new
        /\ StronglySorted Z.lt (page_number <$> new)) as Hrest.
    { intros acc' (new & -> & Hall & Hs)%IH. exists new. repeat split; [|done].
      eapply Forall_impl; [exact Hall|]. simpl. intros p (? & ? & ?).
      repeat split; [done|done|lia|lia]. }
    assert (forall new,
      Forall (fun p => page_source p = filename /\ page_text p <> ""
                       /\ page_num + 1 <= page_number p
                          < page_num + Z.of_nat (S (length rest))) new ->
      Forall (fun p => page_source p = filename /\ page_text p <> ""
                       /\ page_num <= page_number p
                          < page_num + Z.of_nat (S (length rest))) new) as Hweak.
    { intros new Hall. eapply Forall_impl; [exact Hall|]. simpl.
      intros p (? & ? & ?). repeat split; [done|done|lia|lia]. }
    destruct text as [t|];
      [|intros (new & -> & Hall & Hs)%Hrest; exists new; auto].
    destruct (str_truthy t && str_truthy (strip t)) eqn:Hkeep;
      [|intros (new & -> & Hall & Hs)%Hrest; exists new; auto].
    intros (new & -> & Hall & Hs)%Hrest.
    exists (mkPage (strip t) page_num filename :: new).
    rewrite <- app_assoc. split; [done|]. split.
    + constructor; [|by apply Hweak]. simpl. repeat split; [|lia|lia].
      apply andb_true_iff in Hkeep as [_ Hstrip]. unfold str_truthy in Hstrip.
      intros Hempty. by rewrite Hempty in Hstrip.
    + simpl. constructor; [done|]. apply Forall_fmap.
      eapply Forall_impl; [exact Hall|]. simpl. intros p (_ & _ & ?). lia.
  - done.
Qed.

Lemma extracted_pages_source (file_content filename : string) pages :
  extract_text_from_pdf strip pdfplumber_open file_content filename = Ok pages ->
  Forall (fun p => page_source p = filename /\ 1 <= page_number p) pages.
Proof.
  unfold extract_text_from_pdf.
  destruct (pdfplumber_open file_content) as [pdf_pages|e]; [|done].
  destruct (extract_pages _ _ _ _ _) as [pages'|e] eqn:Hloop; [|done].
  intros [= <-]. apply extract_pages_spec in Hloop as (new & -> & Hall & _).
  eapply Forall_impl; [exact Hall|]. simpl. intros p (? & _ & ? & _). done.
Qed.

Lemma str_truthy_true (t : string) : str_truthy t = true <-> t <> "".
Proof.
  unfold str_truthy. rewrite negb_true_iff. split.
  - intros Hne ->. by rewrite String.eqb_refl in Hne.
  - intros Hne. by apply String.eqb_neq.
Qed.

(** The pages the loop appends are those of the document whose text is
    not empty once stripped, each under the number of its position. *)
Lemma extract_pages_members (filename : string)
    (pdf_pages : list (Exc (option string))) :
  forall (page_num : Z) (acc pages : list PageData),
    extract_pages strip filename page_num pdf_pages acc = Ok pages ->
    exists new : list PageData,
      pages = acc ++ new
      /\ forall p,
           p ∈ new
           <-> exists (i : nat) (t : string),
                 pdf_pages !! i = Some (Ok (Some t))
                 /\ t <> "" /\ strip t <> ""
                 /\ p = mkPage (strip t) (page_num + Z.of_nat i) filename.
Proof.
  induction pdf_pages as [|[text|e] rest IH]; intros page_num acc pages; simpl.
  - intros [= <-]. exists []. rewrite app_nil_r. split; [done|]. intros p. split.
    + by intros ?%elem_of_nil.
    + by intros (i & t & ? & _).
  - assert (forall (p : PageData) (new : list PageData),
      (p ∈ new
       <-> exists (i : nat) (t : string),
             rest !! i = Some (Ok (Some t)) /\ t <> "" /\ strip t <> ""
             /\ p = mkPage (strip t) (page_num + 1 + Z.of_nat i) filename) ->
      (p ∈ new
       <-> exists (i : nat) (t : string),
             (Ok text :: rest) !! S i = Some (Ok (Some t)) /\ t <> ""
             /\ strip t <> ""
             /\ p = mkPage (strip t) (page_num + Z.of_nat (S i)) filename))
      as Hshift.
    { intros p new ->. simpl.
      split; intros (i & t & Hi & Ht & Hs & ->); exists i, t;
        (repeat split; [done|done|done|]); f_equal; lia. }
    assert (forall new : list PageData,
      ~ (exists t, text = Some t /\ t <> "" /\ strip t <> "") ->
      (forall p : PageData,
         p ∈ new
         <-> exists (i : nat) (t : string),
               rest !! i = Some (Ok (Some t)) /\ t <> "" /\ strip t <> ""
               /\ p = mkPage (strip t) (page_num + 1 + Z.of_nat i) filename) ->
      forall p : PageData,
        p ∈ new
        <-> exists (i : nat) (t : string),
              (Ok text :: rest) !! i = Some (Ok (Some t)) /\ t <> ""
              /\ strip t <> ""
              /\ p = mkPage (strip t) (page_num + Z.of_nat i) filename) as Hskip.
    { intros new Hno Hnew p. rewrite (Hshift p new (Hnew p)). split.
      - intros (i & t & H). by exists (S i), t.
      - intros ([|i] & t & Hi & Ht & Hs & Hp); [|by exists i, t].
        simpl in Hi. injection Hi as ->. destruct Hno. by exists t. }
    destruct text as [t|].
    + destruct (str_truthy t && str_truthy (strip t)) eqn:Hkeep.
      * intros (new & -> & Hnew)%IH.
        apply andb_true_iff in Hkeep as [Ht%str_truthy_true Hs%str_truthy_true].
        exists (mkPage (strip t) page_num filename :: new).
        rewrite <- app_assoc. split; [done|]. intros p.
        rewrite elem_of_cons, (Hshift p new (Hnew p)). split.
        -- intros [->|(i & t' & H)]; [|by exists (S i), t'].
           exists 0%nat, t. repeat split; [done|done|]. f_equal. simpl. lia.
        -- intros ([|i] & t' & Hi & Ht' & Hs' & Hp); [|right; by exists i, t'].
           left. simpl in Hi. injection Hi as <-. rewrite Hp. f_equal. simpl. lia.
      * intros (new & -> & Hnew)%IH. exists new. split; [done|].
        apply Hskip; [|done]. intros (t' & [= <-] & Ht%str_truthy_true
                                        & Hs%str_truthy_true).
        by rewrite Ht, Hs in Hkeep.
    + intros (new & -> & Hnew)%IH. exists new. split; [done|].
      apply Hskip; [|done]. by intros (t' & ? & _).
  - done.
Qed.

(** X19. The pages [extract_text_from_pdf] returns are exactly the pages
    of the document that have a text which is not empty once stripped:
    each is returned with the stripped text, the file name as source and,
    as number, its position in the document counted from 1, so that the
    pages left out keep their numbers; they come in the order of the
    document, that is, with strictly ascending numbers. *)
Theorem extract_text_from_pdf_pages (file_content filename : string) pages :
  extract_text_from_pdf strip pdfplumber_open file_content filename = Ok pages ->
  exists pdf_pages,
    pdfplumber_open file_content = Ok pdf_pages
    /\ (forall p,
          p ∈ pages
          <-> exists (i : nat) (t : string),
                pdf_pages !! i = Some (Ok (Some t))
                /\ t <> "" /\ strip t <> ""
                /\ p = mkPage (strip t) (Z.of_nat i + 1) filename)
    /\ StronglySorted Z.lt (page_number <$> pages)
    /\ Forall (fun p => page_source p = filename
                        /\ page_text p <> ""
                        /\ 1 <= page_number p <= Z.of_nat (length pdf_pages)) pages.
Proof.
  unfold extract_text_from_pdf.
  destruct (pdfplumber_open file_content) as [pdf_pages|e]; [|done].
  destruct (extract_pages _ _ _ _ _) as [pages'|e] eqn:Hloop; [|done].
  intros [= <-]. exists pdf_pages. split; [done|].
  pose proof Hloop as (new & -> & Hall & Hs)%extract_pages_spec.
  apply extract_pages_members in Hloop as (new' & [= <-] & Hmem).
  split; [|split; [done|]].
  - intros p. rewrite (Hmem p).
    split; intros (i & t & Hi & Ht & Hst & ->); exists i, t;
      (repeat split; [done|done|done|]); f_equal; lia.
  - eapply Forall_impl; [exact Hall|]. simpl. intros p (? & ? & ?).
    repeat split; [done|done|lia|lia].
Qed.


Lemma process_pdf_source self (file_content filename : string)
    (chunk_size_arg chunk_overlap_arg : option Z) (chunks : list DocumentChunk) :
  process_pdf strip pdfplumber_open RecursiveCharacterTextSplitter self
    file_content filename chunk_size_arg chunk_overlap_arg = Ok chunks ->
  Forall (fun c => source (metadata c) = Some filename) chunks.
Proof.
  unfold process_pdf.
  destruct (extract_text_from_pdf _ _ _ _) as [pages|e] eqn:Hpages; [|done].
  apply extracted_pages_source in Hpages.
  assert (forall split_text,
    Forall (fun c => source (metadata c) = Some filename)
      (chunk_pages split_text pages [])) as Hall.
  { intros split_text. rewrite chunk_pages_bind. simpl. apply Forall_forall.
    intros c (p & Hc & Hp)%list_elem_of_bind.
    rewrite Forall_forall in Hpages. destruct (Hpages p Hp) as [Hsrc _].
    apply list_elem_of_lookup in Hc as [i Hi]. unfold page_chunks_of in Hi.
    apply list_lookup_imap_Some in Hi as (t & _ & ->). simpl. by rewrite Hsrc. }
  destruct chunk_size_arg, chunk_overlap_arg; simpl;
    try destruct (RecursiveCharacterTextSplitter _ _); try done;
    intros [= <-]; apply Hall.
Qed.

(** X21. Every chunk [process_pdf] returns, with or without overrides
    of the chunking, has the file name as source, a page number from 1 on
    and a chunk index from 0 on. *)
Theorem process_pdf_chunks self (file_content filename : string)
    (chunk_size_arg chunk_overlap_arg : option Z) (chunks : list DocumentChunk) :
  process_pdf strip pdfplumber_open RecursiveCharacterTextSplitter self
    file_content filename chunk_size_arg chunk_overlap_arg = Ok chunks ->
  Forall (fun c => source (metadata c) = Some filename
                   /\ (exists n, page (metadata c) = Some n /\ 1 <= n)
                   /\ exists i, chunk_index (metadata c) = Some i /\ 0 <= i)
    chunks.
Proof.
  unfold process_pdf.
  destruct (extract_text_from_pdf _ _ _ _) as [pages|e] eqn:Hpages; [|done].
  apply extracted_pages_source in Hpages.
  assert (forall split_text,
    Forall (fun c => source (metadata c) = Some filename
                     /\ (exists n, page (metadata c) = Some n /\ 1 <= n)
                     /\ exists i, chunk_index (metadata c) = Some i /\ 0 <= i)
      (chunk_pages split_text pages [])) as Hall.
  { intros split_text. rewrite chunk_pages_bind. simpl. apply Forall_forall.
    intros c (p & Hc & Hp)%list_elem_of_bind.
    rewrite Forall_forall in Hpages. destruct (Hpages p Hp) as [Hsrc Hnum].
    apply list_elem_of_lookup in Hc as [i Hi]. unfold page_chunks_of in Hi.
    apply list_lookup_imap_Some in Hi as (t & _ & ->). simpl.
    rewrite Hsrc. repeat split; [eauto|]. exists (Z.of_nat i). split; [done|lia]. }
  destruct chunk_size_arg, chunk_overlap_arg; simpl;
    try destruct (RecursiveCharacterTextSplitter _ _); try done;
    intros [= <-]; apply Hall.
Qed.

End PDFMore.

(** ** Properties of the routes *)

Section RoutesMore.

Context {F : Type}.
Variable normalize_row : list F -> list F.
Variable index_search : IndexFlatIP F -> ndarray F -> Z -> Exc (list (F * Z)).
Variable settings : Settings.
Variable strip : string -> string.
Variable pdfplumber_open : string -> Exc (list (Exc (option string))).
Variable RecursiveCharacterTextSplitter : Z -> Z -> Exc (string -> list string).
Variable lower : string -> string.

Implicit Types (s : VectorStoreService F) (svc : EmbeddingService F).
Implicit Types (pdf_processor : PDFProcessor) (files : list UploadFile).

(** *** Uploading *)

(** What one turn of the loop of [upload_documents] does: the file is
    skipped with one more error and an untouched store, or it is indexed
    and its chunks are appended. *)
Lemma upload_file_cases pdf_processor svc (uuid4 : nat -> string)
    (file : UploadFile) (t : Tally) s :
  exists (t' : Tally) s' (log : list Call),
    upload_file normalize_row strip pdfplumber_open RecursiveCharacterTextSplitter
      lower pdf_processor svc uuid4 file t s
    = (Ok t', s', log)
    /\ ((tally_indexed t' = tally_indexed t
         /\ tally_chunks t' = tally_chunks t
         /\ s' = s)
        \/ (tally_indexed t' = S (tally_indexed t)
            /\ exists (name content : string) (chunks : list DocumentChunk),
                 filename file = Some name
                 /\ process_pdf strip pdfplumber_open RecursiveCharacterTextSplitter
                      pdf_processor content name None None
                    = Ok chunks
                 /\ chunks <> []
                 /\ tally_chunks t' = (tally_chunks t + length chunks)%nat
                 /\ _documents s' = _documents s ++ new_records uuid4 0 chunks)).
Proof.
  unfold upload_file.
  destruct (negb _ || negb _) eqn:Hname.
  { eexists _, _, _. split; [reflexivity|]. by left. }
  unfold try_except. run.
  destruct (read file) as [content|e]; simpl;
    [|eexists _, _, _; split; [reflexivity|]; by left].
  destruct (negb (str_truthy content)); simpl;
    [eexists _, _, _; split; [reflexivity|]; by left|].
  destruct (process_pdf _ _ _ _ _ _ _ _) as [chunks|e] eqn:Hpdf; simpl;
    [|eexists _, _, _; split; [reflexivity|]; by left].
  destruct chunks as [|c cs]; simpl;
    [eexists _, _, _; split; [reflexivity|]; by left|].
  rewrite add_chunks_run by done. unfold add_outcome.
  destruct (embed_texts _ _) as [embeddings|e]; simpl;
    [|eexists _, _, _; split; [reflexivity|]; by left].
  destruct (np_array embeddings) as [x|e]; simpl;
    [|eexists _, _, _; split; [reflexivity|]; by left].
  destruct (Nat.eqb _ _); simpl;
    [|eexists _, _, _; split; [reflexivity|]; by left].
  eexists _, _, _. split; [reflexivity|]. right. simpl.
  split; [lia|]. destruct (filename file) as [name|] eqn:Hfile; [|done].
  exists name, content, (c :: cs). simpl in Hpdf. by repeat split.
Qed.

Lemma new_records_length (uuid4 : nat -> string) (i : nat)
    (chunks : list DocumentChunk) :
  length (new_records uuid4 i chunks) = length chunks.
Proof. unfold new_records. apply length_imap. Qed.

Lemma new_records_from_source (uuid4 : nat -> string) (i : nat)
    (chunks : list DocumentChunk) (name : string) :
  Forall (fun c => source (metadata c) = Some name) chunks ->
  Forall (from_source name) (new_records uuid4 i chunks).
Proof.
  intros Hall. apply Forall_forall. intros doc Hdoc.
  apply list_elem_of_lookup in Hdoc as [j Hj]. unfold new_records in Hj.
  apply list_lookup_imap_Some in Hj as (c & Hc & ->).
  rewrite Forall_forall in Hall. apply Hall. by apply list_elem_of_lookup_2 in Hc.
Qed.

(** What the whole loop does. *)
Lemma upload_files_cases pdf_processor svc (uuid4 : nat -> nat -> string) files :
  forall (k : nat) (t : Tally) s,
  exists (t' : Tally) s' (log : list Call) (extra : list Doc),
    upload_files normalize_row strip pdfplumber_open RecursiveCharacterTextSplitter
      lower pdf_processor svc uuid4 k files t s
    = (Ok t', s', log)
    /\ _documents s' = _documents s ++ extra
    /\ tally_chunks t' = (tally_chunks t + length extra)%nat
    /\ (tally_indexed t <= tally_indexed t' <= tally_indexed t + length files)%nat
    /\ (tally_indexed t' - tally_indexed t <= length extra)%nat
    /\ (tally_indexed t' = tally_indexed t -> s' = s)
    /\ Forall (fun doc => exists file name,
                 file ∈ files /\ filename file = Some name /\ from_source name doc)
         extra.
Proof.
  induction files as [|file rest IH]; intros k t s.
  { exists t, s, [], []. simpl. rewrite app_nil_r.
    repeat split; [lia|lia|lia|lia|constructor]. }
  destruct (upload_file_cases pdf_processor svc (uuid4 k) file t s)
    as (t1 & s1 & l1 & Hfile & Hcase).
  destruct (IH (S k) t1 s1) as (t2 & s2 & l2 & extra & Hrest & Hdocs & Hchunks
                                 & Hidx & Hle & Hsame & Hsrc).
  exists t2, s2, (l1 ++ l2). simpl. run. rewrite Hfile, Hrest.
  assert (Forall (fun doc => exists file0 name,
            file0 ∈ file :: rest /\ filename file0 = Some name /\ from_source name doc)
            extra) as Hsrc'.
  { eapply Forall_impl; [exact Hsrc|]. simpl.
    intros doc (f & name & Hf & Hname & Hdoc). exists f, name.
    split; [by apply list_elem_of_further|done]. }
  destruct Hcase as [(Hi & Hc & ->)|(Hi & name & content & chunks & Hname & Hpdf
                                      & Hne & Hc & Hd)].
  - exists extra. rewrite Hchunks, Hc. rewrite Hi in *.
    repeat split; [done|lia|lia|done|done|done].
  - exists (new_records (uuid4 k) 0 chunks ++ extra).
    rewrite Hdocs, Hd, <- app_assoc, length_app, new_records_length.
    assert (length chunks <> 0)%nat by (by destruct chunks).
    repeat split; [lia|lia|lia|lia|lia|].
    apply Forall_app. split; [|done].
    apply process_pdf_source in Hpdf.
    eapply Forall_impl; [by apply new_records_from_source|]. simpl.
    intros doc Hdoc. exists file, name. split; [apply list_elem_of_here|done].
Qed.

(** X22. [upload_documents] lets no exception through, and the only
    error it raises is the status 400, which it raises only when no file
    was indexed: the store is then exactly as before the request. *)
Theorem upload_documents_rejects_with_400 pdf_processor svc
    (uuid4 : nat -> nat -> string) files s
    (r : HTTP DocumentUploadResponse) s' (log : list Call) :
  upload_documents normalize_row strip pdfplumber_open
    RecursiveCharacterTextSplitter lower pdf_processor svc uuid4 files s
  = (r, s', log) ->
  match r with
  | Respond _ => True
  | HTTPException status_code _ => status_code = 400 /\ s' = s
  | Uncaught _ => False
  end.
Proof.
  unfold upload_documents. destruct files as [|file rest]; [by intros [= <- <- _]|].
  destruct (upload_files_cases pdf_processor svc uuid4 (file :: rest) 0%nat
              (mkTally 0 0 []) s)
    as (t & s1 & l & extra & -> & _ & _ & _ & _ & Hsame & _).
  destruct (Nat.eqb_spec (tally_indexed t) 0) as [Hz|_]; intros [= <- <- _]; [|done].
  split; [done|]. by apply Hsame.
Qed.

(** X23. When [upload_documents] answers, at least one file and at most
    all of them were indexed, each with at least one chunk, and the
    documents of the store are those of before followed by as many new
    records as the answer counts chunks. *)
Theorem upload_documents_counts pdf_processor svc
    (uuid4 : nat -> nat -> string) files s
    (resp : DocumentUploadResponse) s' (log : list Call) :
  upload_documents normalize_row strip pdfplumber_open
    RecursiveCharacterTextSplitter lower pdf_processor svc uuid4 files s
  = (Respond resp, s', log) ->
  (1 <= documents_indexed resp <= length files)%nat
  /\ (documents_indexed resp <= response_total_chunks resp)%nat
  /\ exists extra : list Doc,
       _documents s' = _documents s ++ extra
       /\ length extra = response_total_chunks resp.
Proof.
  unfold upload_documents. destruct files as [|file rest]; [done|].
  destruct (upload_files_cases pdf_processor svc uuid4 (file :: rest) 0%nat
              (mkTally 0 0 []) s)
    as (t & s1 & l & extra & -> & Hdocs & Hchunks & Hidx & Hle & _ & _).
  destruct (Nat.eqb_spec (tally_indexed t) 0) as [|Hnz]; [done|].
  intros [= <- <- _]. simpl in *. repeat split; [lia|lia|lia|].
  exists extra. split; [done|lia].
Qed.

(** X24. After an upload that was answered, every source
    [list_documents] lists was listed before or is the name of one of the
    uploaded files. *)
Theorem upload_documents_then_list pdf_processor svc
    (uuid4 : nat -> nat -> string) files s
    (resp : DocumentUploadResponse) s' (log : list Call) :
  upload_documents normalize_row strip pdfplumber_open
    RecursiveCharacterTextSplitter lower pdf_processor svc uuid4 files s
  = (Respond resp, s', log) ->
  forall x : string,
    x ∈ list_documents s' ->
    x ∈ list_documents s \/ exists file, file ∈ files /\ filename file = Some x.
Proof.
  unfold upload_documents. destruct files as [|file rest]; [done|].
  destruct (upload_files_cases pdf_processor svc uuid4 (file :: rest) 0%nat
              (mkTally 0 0 []) s)
    as (t & s1 & l & extra & -> & Hdocs & _ & _ & _ & _ & Hsrc).
  destruct (Nat.eqb_spec (tally_indexed t) 0) as [|Hnz]; [done|].
  intros [= _ <- _] x Hx.
  apply (list_documents_app_docs s s1 extra Hdocs) in Hx
    as [Hx|(_ & doc & Hdoc & Hfrom)]; [by left|right].
  rewrite Forall_forall in Hsrc.
  destruct (Hsrc doc Hdoc) as (f & name & Hf & Hname & Hfrom').
  exists f. split; [done|]. unfold from_source in *. congruence.
Qed.

(** *** Deleting and asking *)

(** X25. On a store that has an index whenever it has documents, the
    route that deletes a document raises the status 404, with the message
    that names the document, exactly when the store has no document of
    that name: the store is then as before and no service was called.
    When the store has one, the route never raises a status. It answers
    with the message of success when no document remains or the
    embedding service returned a matrix for the remaining texts: the
    store then holds exactly the documents of the other names, in their
    order, and the name is no longer listed. It lets an exception through
    only when documents remain and the embedding service, or the making
    of the matrix from its answer, raised it: the store is then as before
    the request. *)
Theorem route_delete_document_outcome svc (name : string) s :
  has_index_if_documents s ->
  ((~ exists doc, doc ∈ _documents s /\ from_source name doc) ->
   route_delete_document normalize_row svc name s
   = (HTTPException 404 ("Document '" +:+ name +:+ "' not found"), s, []))
  /\ ((exists doc, doc ∈ _documents s /\ from_source name doc) ->
      let remaining := filter (fun doc => ~ from_source name doc) (_documents s) in
      let texts := doc_text <$> remaining in
      match route_delete_document normalize_row svc name s with
      | (Respond msg, s', log) =>
          msg = "Document '" +:+ name +:+ "' deleted successfully"
          /\ _documents s' = remaining
          /\ (name ∉ list_documents s')
          /\ (remaining = []
              \/ exists embeddings x,
                   embed_texts svc texts = Ok embeddings
                   /\ np_array embeddings = Ok x)
      | (HTTPException _ _, _, _) => False
      | (Uncaught e, s', log) =>
          s' = s
          /\ remaining <> []
          /\ (embed_texts svc texts = Raise e
              \/ exists embeddings,
                   embed_texts svc texts = Ok embeddings
                   /\ np_array embeddings = Raise e)
      end).
Proof.
  unfold has_index_if_documents, route_delete_document. intros Hinit.
  rewrite delete_document_run. unfold delete_outcome.
  rewrite <- keep_other_sources_from_source.
  assert (forall docs : list Doc,
    name ∉ list_documents (mkStore (_index s) (keep_other_sources name docs)
                             None None)) as Hgone.
  { intros docs (_ & doc & Hdoc & Hsrc)%elem_of_list_documents.
    cbn [_documents] in Hdoc.
    pose proof (keep_other_sources_sound name docs) as Hall.
    rewrite Forall_forall in Hall. by apply (Hall doc). }
  split.
  - intros Hno.
    assert (keep_other_sources name (_documents s) = _documents s) as Hid.
    { apply keep_other_sources_id, Forall_forall. intros doc Hdoc Hsrc.
      apply Hno. by exists doc. }
    rewrite Hid, Nat.eqb_refl.
    destruct (_index s); [|done]. by destruct (_documents s).
  - intros (doc & Hdoc & Hsrc). cbv zeta.
    destruct (_index s) as [idx|] eqn:Hidx;
      [|rewrite Hinit in Hdoc by done; by apply elem_of_nil in Hdoc].
    destruct (Nat.eqb _ _) eqn:Hlen.
    { apply Nat.eqb_eq, keep_other_sources_all in Hlen.
      rewrite Forall_forall in Hlen. by destruct (Hlen doc Hdoc). }
    generalize (Hgone (_documents s)).
    destruct (_documents s) as [|d ds] eqn:E; [by apply elem_of_nil in Hdoc|].
    rewrite <- E. clear Hgone.
    destruct (keep_other_sources name (_documents s)) as [|d' ds'] eqn:Hkeep.
    { intros Hgone. repeat split; [done|by left]. }
    intros Hgone.
    destruct (embed_texts svc _) as [embeddings|e] eqn:Hemb;
      [|repeat split; [done|by left]].
    destruct (np_array embeddings) as [x|e] eqn:Hnp.
    + repeat split; [done|right; by exists embeddings, x].
    + repeat split; [done|right; by exists embeddings].
Qed.

(** What [query] does, by cases on the store, the embedding service and
    the search. *)
Lemma query_cases svc (q : string) (top_k : option Z) s :
  query normalize_row index_search settings svc q top_k s
  = match _index s with
    | None => (Ok [], s, [])
    | Some idx =>
        if Nat.eqb (ntotal idx) 0 then (Ok [], s, [])
        else
          match embed_query svc q with
          | Raise e => (Raise e, s, [CallEmbedQuery q])
          | Ok qv =>
              match index_search idx
                      (normalize_L2 normalize_row (mkArray (length qv) [qv]))
                      (Z.min (top_k_or_default settings top_k)
                         (Z.of_nat (ntotal idx))) with
              | Raise e => (Raise e, s, [CallEmbedQuery q])
              | Ok hits => (Ok (format_results (_documents s) hits), s, [CallEmbedQuery q])
              end
          end
    end.
Proof.
  unfold query. run. destruct (_index s) as [idx|]; [|done].
  destruct (Nat.eqb _ _); [done|].
  destruct (embed_query svc q) as [qv|e]; [|done]. simpl.
  by destruct (index_search _ _ _).
Qed.

Lemma format_results_texts (docs : list Doc) (hits : list (F * Z)) :
  Forall (fun ref => exists doc, doc ∈ docs /\ doc_text doc = ref)
    (res_text <$> format_results docs hits).
Proof.
  induction hits as [|[dist idx] hits IH]; simpl; [constructor|].
  destruct (_ || _); [done|].
  destruct (docs !! Z.to_nat idx) as [doc|] eqn:Hdoc; [|done].
  constructor; [|done]. exists doc. split; [|done].
  by apply list_elem_of_lookup_2 in Hdoc.
Qed.

Lemma generate_answer_references (self : LLMService) (q : string)
    (chunks : list (QueryResult F)) (provider : option string) (a : Answer) :
  (generate_answer self q chunks provider).1 = Ok a ->
  references a = res_text <$> chunks.
Proof.
  rewrite generate_answer_cases. destruct chunks as [|c cs]; [by intros [= <-]|].
  destruct (_providers self) as [|q0 qs]; [done|].
  destruct (candidates self provider) as [|p ps]; [done|].
  generalize (user_prompt_of (c :: cs) q) (@None Exception). intros up.
  induction (p :: ps) as [|r providers IH]; intros last; [done|]. simpl.
  destruct (generate r SYSTEM_PROMPT up) as [t|cause]; [by intros [= <-]|].
  specialize (IH (Some cause)).
  by destruct (try_providers providers up (c :: cs) (Some cause)).
Qed.

(** X26. On a store without vectors, [ask_question] answers with the
    fixed message and no reference, whatever the embedding service and the
    providers would do and even when no provider is configured or the
    requested one is missing: neither is called. *)
Theorem ask_question_empty_store svc (llm_service : LLMService)
    (request : QuestionRequest) s :
  vector_count settings s = 0%nat ->
  ask_question normalize_row index_search settings svc llm_service request s
  = (Respond (mkQuestionResponse NO_DOCUMENTS_ANSWER []), s, [], []).
Proof.
  rewrite vector_count_eq. unfold vectors, ask_question. rewrite query_cases.
  destruct (_index s) as [idx|]; [|done]. unfold ntotal.
  by intros ->.
Qed.


(** X28. The references [ask_question] answers with are texts of
    documents of the store, in the order of the retrieval. *)
Theorem ask_question_references_from_store svc (llm_service : LLMService)
    (request : QuestionRequest) s (resp : QuestionResponse) s'
    (log : list Call) (invs : list Invocation) :
  ask_question normalize_row index_search settings svc llm_service request s
  = (Respond resp, s', log, invs) ->
  Forall (fun ref => exists doc, doc ∈ _documents s /\ doc_text doc = ref)
    (response_references resp).
Proof.
  unfold ask_question. rewrite query_cases.
  assert (forall (chunks : list (QueryResult F)) (l : list Call),
    Forall (fun ref => exists doc, doc ∈ _documents s /\ doc_text doc = ref)
      (res_text <$> chunks) ->
    match generate_answer llm_service (request_question request) chunks
            (provider_value <$> request_provider request) with
    | (Ok result, invs0) =>
        (Respond (mkQuestionResponse (answer result) (references result)),
         s, l, invs0)
    | (Raise e, invs0) =>
        (HTTPException 500 ("Failed to process question: " +:+ exc_msg e),
         s, l, invs0)
    end = (Respond resp, s', log, invs) ->
    Forall (fun ref => exists doc, doc ∈ _documents s /\ doc_text doc = ref)
      (response_references resp)) as Hanswer.
  { intros chunks l Hchunks.
    destruct (generate_answer _ _ _ _) as [[a|e] invs0] eqn:Ha; [|done].
    intros [= <- _ _ _]. simpl.
    by rewrite (generate_answer_references llm_service _ chunks _ a)
      by (by rewrite Ha). }
  destruct (_index s) as [idx|]; [|apply Hanswer; constructor].
  destruct (Nat.eqb _ _); [apply Hanswer; constructor|].
  destruct (embed_query _ _) as [qv|e]; [|done].
  destruct (index_search _ _ _) as [hits|e]; [|done].
  apply Hanswer, format_results_texts.
Qed.

End RoutesMore.

(** ** The statements on the small instance *)

Import Toy.

Lemma model_faithful : faithful enc model.
Proof. intros texts embeddings H. by injection H as <-. Defined.

Lemma offline_faithful : faithful enc offline.
Proof. intros texts embeddings H. discriminate H. Defined.

(** The session of seven operations, two of them with the embedding
    service down, keeps index and documents coupled. *)
Lemma positional_coupling_witness :
  coupled normalize enc (run_ops normalize session empty_store)
  /\ vector_count default_settings (run_ops normalize session empty_store)
     = length (_documents (run_ops normalize session empty_store))
  /\ forall (i : nat) doc,
       _documents (run_ops normalize session empty_store) !! i = Some doc ->
       vectors (run_ops normalize session empty_store) !! i
       = Some (vector_of normalize enc doc).
Proof.
  apply (positional_coupling normalize default_settings enc session empty_store).
  - reflexivity.
  - unfold session.
    repeat (apply Forall_cons; split;
            [first [exact model_faithful | exact offline_faithful | exact I]|]).
    apply Forall_nil_2.
Defined.

(** Two chunks added to the stocked store. *)
Lemma add_chunks_count_and_order_witness :
  exists s',
    add_chunks normalize model uuid4 [bearing; oil] stocked
    = (Ok 2%nat, s', [CallEmbedTexts ["Bearing"; "Oil"]])
    /\ total_chunks (get_collection_stats default_settings s') = (3 + 2)%nat
    /\ _documents s'
       = _documents stocked
           ++ [mkDoc "id-0" "Bearing" (metadata bearing);
               mkDoc "id-1" "Oil" (metadata oil)].
Proof.
  apply (add_chunks_count_and_order normalize default_settings model uuid4
           [bearing; oil] stocked [enc "Bearing"; enc "Oil"] 2).
  - discriminate.
  - reflexivity.
  - reflexivity.
  - repeat constructor.
  - intros idx H. injection H as <-. reflexivity.
Defined.

(** The embedding service is down: the error reaches the caller and the
    stocked store is untouched. *)
Lemma add_chunks_all_or_nothing_witness :
  embed_texts offline (text <$> [motor]) = Raise (RuntimeError "model not loaded")
  /\ add_chunks normalize offline uuid4 [motor] stocked
     = (Raise (RuntimeError "model not loaded"), stocked,
        [CallEmbedTexts ["The motor draws 5A."]]).
Proof.
  split; [reflexivity|].
  apply (proj1 (add_chunks_all_or_nothing normalize offline uuid4 [motor] stocked)).
  - discriminate.
  - reflexivity.
Defined.

(** A model of dimension 3 on an index of dimension 2: the insertion
    raises and the store is untouched. *)
Example add_chunks_wrong_dimension :
  add_chunks normalize wide uuid4 [motor] stocked
  = (Raise AssertionError, stocked, [CallEmbedTexts ["The motor draws 5A."]]).
Proof. reflexivity. Qed.

(** A search that returns a position without document: the hit is
    skipped, the two others come back by descending score. *)
Lemma query_postcondition_witness :
  query normalize flat_search default_settings offline question None empty_store
  = (Ok [], empty_store, [])
  /\ exists results,
       query normalize flat_search default_settings model "abc" (Some 5) stale
       = (Ok results, stale, [CallEmbedQuery "abc"])
       /\ Z.of_nat (length results)
          <= Z.min 5 (Z.of_nat (total_chunks (get_collection_stats default_settings stale)))
       /\ StronglySorted (fun a b => distance b <= distance a) results
       /\ results
          = omap (hit_record (_documents stale)) [(58, 0); (22, 1); (10, 2)].
Proof.
  split.
  - apply (proj1 (query_postcondition normalize flat_search default_settings
                    offline question empty_store)).
    reflexivity.
  - apply (proj2 (query_postcondition normalize flat_search default_settings
                    model "abc" stale)
             5 (mkIndex 2 [[19; 1]; [7; 1]; [3; 1]]) [3; 1]
             [(58, 0); (22, 1); (10, 2)] (fun a b => b <= a)).
    + lia.
    + reflexivity.
    + discriminate.
    + reflexivity.
    + reflexivity.
    + vm_compute. lia.
    + repeat constructor; simpl; lia.
Defined.

Example query_skips_stale_position :
  query normalize flat_search default_settings model "abc" (Some 5) stale
  = (Ok [mkResult "The motor draws 5A." (metadata motor) 58;
         mkResult "Bearing" (metadata bearing) 22],
     stale, [CallEmbedQuery "abc"]).
Proof. reflexivity. Qed.

(** The primary provider raises, the secondary answers; and both raise. *)
Lemma generate_answer_fallback_witness :
  generate_answer (mkLLMService [gemini_down; openai_up]) question retrieved None
  = (Ok (mkAnswer "The motor draws 5A." ["The motor draws 5A."; "Bearing"]),
     invocation (user_prompt_of retrieved question) <$> [gemini_down; openai_up])
  /\ generate_answer (mkLLMService [gemini_down; openai_down]) question retrieved None
     = (Raise (RuntimeError "All LLM providers failed. Last error: timed out"),
        invocation (user_prompt_of retrieved question) <$> [gemini_down; openai_down]).
Proof.
  split.
  - apply (proj1 (generate_answer_fallback (mkLLMService [gemini_down; openai_up])
                    question retrieved None ltac:(discriminate))
             [gemini_down] openai_up [] "The motor draws 5A.").
    + reflexivity.
    + repeat constructor. by eexists.
    + reflexivity.
  - apply (proj1 (proj2 (generate_answer_fallback
                           (mkLLMService [gemini_down; openai_down])
                           question retrieved None ltac:(discriminate)))
             [gemini_down] openai_down (mkExc "APITimeoutError" "timed out")).
    + reflexivity.
    + repeat constructor. by eexists.
    + reflexivity.
Defined.

(** An empty registry, and a registry without the requested provider. *)
Lemma generate_answer_configuration_errors_witness :
  generate_answer (mkLLMService []) question retrieved None
  = (Raise (RuntimeError NOT_CONFIGURED), [])
  /\ generate_answer (mkLLMService [openai_up]) question retrieved (Some "gemini")
     = (Raise (RuntimeError
                 "Provider 'gemini' is not available. Check that its API key is set in .env"),
        []).
Proof.
  split.
  - apply (proj1 (generate_answer_configuration_errors (mkLLMService [])
                    question retrieved None ltac:(discriminate))).
    reflexivity.
  - apply (proj2 (generate_answer_configuration_errors (mkLLMService [openai_up])
                    question retrieved (Some "gemini") ltac:(discriminate))
             "gemini").
    + discriminate.
    + reflexivity.
    + discriminate.
    + intros H. apply list_elem_of_In in H. simpl in H.
      destruct H as [H|[]]. discriminate H.
Defined.

(** A source that no document has. *)
Lemma delete_document_unknown_source_witness :
  delete_document normalize offline "nope.pdf" stocked = (Ok false, stocked, [])
  /\ get_collection_stats default_settings
       (delete_document normalize offline "nope.pdf" stocked).1.2
     = get_collection_stats default_settings stocked.
Proof.
  apply (delete_document_unknown_source normalize default_settings offline
           "nope.pdf" stocked).
  repeat constructor; discriminate.
Defined.

(** One of two sources deleted, and the only source deleted. *)
Lemma delete_document_then_list_witness :
  list_documents stocked = ["manual.pdf"; "spec.pdf"]
  /\ ("spec.pdf" ∉ list_documents (delete_document normalize model "spec.pdf" stocked).1.2)
  /\ delete_document normalize model "spec.pdf" spec_only
     = (Ok true, (reset_collection spec_only).1.2, []).
Proof.
  split; [reflexivity|]. split.
  - apply (proj1 (delete_document_then_list normalize model "spec.pdf" stocked
                    ltac:(discriminate))
             true _ (delete_document normalize model "spec.pdf" stocked).2).
    reflexivity.
  - apply (proj2 (delete_document_then_list normalize model "spec.pdf" spec_only
                    ltac:(discriminate))).
    + discriminate.
    + repeat constructor.
Defined.

(** The scenario of the specification: one chunk added to the empty
    store, then asked for. *)
Example motor_scenario :
  total_chunks (get_collection_stats default_settings
                  (add_chunks normalize model uuid4 [motor] empty_store).1.2)
  = 1%nat
  /\ (query normalize flat_search default_settings model question (Some 1)
        (add_chunks normalize model uuid4 [motor] empty_store).1.2).1.1
     = Ok [mkResult "The motor draws 5A." (metadata motor) 495].
Proof. split; reflexivity. Qed.

Example stocked_statistics :
  get_collection_stats default_settings stocked
  = mkStats "tractian_documents" 2 3.
Proof. reflexivity. Qed.

Example context_of_retrieved :
  _build_context retrieved
  = "[Source 1: spec.pdf, Page 1]
The motor draws 5A.

[Source 2: manual.pdf, Page 2]
Bearing".
Proof. reflexivity. Qed.

(** ** The further statements on the small instances *)

Import ToyApp.

Example extract_motor_document :
  extract_text_from_pdf strip pdfplumber_open "%PDF motor" "spec.pdf"
  = Ok motor_pages.
Proof. reflexivity. Qed.

(** The processor of the settings; a chunk size below the overlap is
    refused by the splitter, at construction and in [process_pdf]. *)
Example processor_of_settings :
  PDFProcessor_init splitter env None None = Ok processor
  /\ PDFProcessor_init splitter env (Some 100) None
     = Raise (ValueError "Got a larger chunk overlap (200) than chunk size (100), should be smaller.").
Proof. split; reflexivity. Qed.

Example process_pdf_small_chunk_size :
  process_pdf strip pdfplumber_open splitter processor "%PDF motor" "spec.pdf"
    (Some 100) None
  = Raise (ValueError "Got a larger chunk overlap (200) than chunk size (100), should be smaller.").
Proof. reflexivity. Qed.

Example upload_answer :
  (upload_documents normalize strip pdfplumber_open splitter lower processor
     model uuids upload empty_store).1.1
  = Respond
      (mkDocumentUploadResponse
         "Documents processed successfully (with warnings: 'notes.txt': Not a PDF file, skipped.; 'torn.pdf': Failed to process PDF 'torn.pdf': bad page; 'None': Not a PDF file, skipped.)"
         1 3).
Proof. reflexivity. Qed.

(** One more source after the batch. *)
Lemma add_chunks_then_list_witness :
  "manual.pdf" ∈ list_documents
                   (add_chunks normalize model uuid4 [bearing] spec_only).1.2
  <-> "manual.pdf" ∈ list_documents spec_only
      \/ ("manual.pdf" <> ""
          /\ exists c, c ∈ [bearing] /\ source (metadata c) = Some "manual.pdf").
Proof.
  apply (add_chunks_then_list normalize model uuid4 [bearing] spec_only 1%nat
           _ (add_chunks normalize model uuid4 [bearing] spec_only).2).
  reflexivity.
Defined.

(** The documents of the manual stay when those of the specification
    are deleted. *)
Lemma delete_document_keeps_other_sources_witness :
  _documents (delete_document normalize model "spec.pdf" stocked).1.2
  = filter (fun doc => ~ from_source "spec.pdf" doc) (_documents stocked)
  /\ (true = true
      <-> exists doc, doc ∈ _documents stocked /\ from_source "spec.pdf" doc).
Proof.
  apply (delete_document_keeps_other_sources normalize model "spec.pdf" stocked
           true _ (delete_document normalize model "spec.pdf" stocked).2).
  - discriminate.
  - reflexivity.
Defined.

Lemma delete_document_twice_witness :
  delete_document normalize offline "spec.pdf"
    (delete_document normalize model "spec.pdf" stocked).1.2
  = (Ok false, (delete_document normalize model "spec.pdf" stocked).1.2, []).
Proof.
  apply (delete_document_twice normalize model offline "spec.pdf" stocked
           true _ (delete_document normalize model "spec.pdf" stocked).2).
  - discriminate.
  - reflexivity.
Defined.

Lemma delete_document_list_others_witness :
  "manual.pdf" ∈ list_documents
                   (delete_document normalize model "spec.pdf" stocked).1.2
  <-> "manual.pdf" ∈ list_documents stocked /\ "manual.pdf" <> "spec.pdf".
Proof.
  apply (delete_document_list_others normalize model "spec.pdf" stocked
           true _ (delete_document normalize model "spec.pdf" stocked).2).
  - discriminate.
  - reflexivity.
Defined.

(** The embedding service is down while the manual is to be re-embedded. *)
Lemma delete_document_failure_witness :
  (delete_document normalize offline "spec.pdf" stocked).1.2 = stocked
  /\ (delete_document normalize offline "spec.pdf" stocked).2
     = [CallEmbedTexts
          (doc_text <$> keep_other_sources "spec.pdf" (_documents stocked))]
  /\ (embed_texts offline
        (doc_text <$> keep_other_sources "spec.pdf" (_documents stocked))
      = Raise (RuntimeError "model not loaded")
      \/ exists embeddings,
           embed_texts offline
             (doc_text <$> keep_other_sources "spec.pdf" (_documents stocked))
           = Ok embeddings
           /\ np_array embeddings = Raise (RuntimeError "model not loaded")).
Proof.
  apply (delete_document_failure normalize offline "spec.pdf" stocked).
  reflexivity.
Defined.

(** Three hits on the three documents of the stocked store. *)
Lemma query_one_result_per_hit_witness :
  exists results,
    query normalize flat_search default_settings model "abc" (Some 5) stocked
    = (Ok results, stocked, [CallEmbedQuery "abc"])
    /\ length results = 3%nat
    /\ forall (j : nat) hit,
         [(58, 0); (22, 1); (10, 2)] !! j = Some hit ->
         exists doc,
           _documents stocked !! Z.to_nat hit.2 = Some doc
           /\ results !! j = Some (mkResult (doc_text doc) (doc_metadata doc) hit.1).
Proof.
  apply (query_one_result_per_hit normalize flat_search default_settings model
           "abc" stocked 5 (mkIndex 2 [[19; 1]; [7; 1]; [3; 1]]) [3; 1]
           [(58, 0); (22, 1); (10, 2)]).
  - lia.
  - reflexivity.
  - discriminate.
  - reflexivity.
  - reflexivity.
  - reflexivity.
  - repeat constructor; simpl; lia.
Defined.

(** OpenAI requested: Gemini is not called, though it comes first. *)
Lemma generate_answer_no_fallback_when_requested_witness :
  Forall (fun inv => inv_provider inv = "openai")
    (generate_answer (mkLLMService [gemini_down; openai_down]) question
       retrieved (Some "openai")).2.
Proof.
  apply (generate_answer_no_fallback_when_requested
           (mkLLMService [gemini_down; openai_down]) question retrieved "openai").
  discriminate.
Defined.

Lemma generate_answer_raises_runtime_errors_witness :
  exc_class (RuntimeError "All LLM providers failed. Last error: timed out")
  = "RuntimeError"
  /\ (exc_msg (RuntimeError "All LLM providers failed. Last error: timed out")
      = NOT_CONFIGURED
      \/ (exists p, requested None = Some p
                    /\ exc_msg (RuntimeError
                                  "All LLM providers failed. Last error: timed out")
                       = not_available p)
      \/ exists q (cause : Exception),
           q ∈ candidates (mkLLMService [gemini_down; openai_down]) None
           /\ generate q SYSTEM_PROMPT (user_prompt_of retrieved question)
              = Raise cause
           /\ exc_msg (RuntimeError
                         "All LLM providers failed. Last error: timed out")
              = all_failed cause).
Proof.
  apply (generate_answer_raises_runtime_errors
           (mkLLMService [gemini_down; openai_down]) question retrieved None).
  reflexivity.
Defined.

Lemma generate_answer_answer_provenance_witness :
  references (mkAnswer "The motor draws 5A." ["The motor draws 5A."; "Bearing"])
  = res_text <$> retrieved
  /\ exists q,
       q ∈ candidates (mkLLMService [gemini_down; openai_up]) None
       /\ generate q SYSTEM_PROMPT (user_prompt_of retrieved question)
          = Ok (answer (mkAnswer "The motor draws 5A."
                          ["The motor draws 5A."; "Bearing"])).
Proof.
  apply (generate_answer_answer_provenance
           (mkLLMService [gemini_down; openai_up]) question retrieved None).
  - discriminate.
  - reflexivity.
Defined.

(** The chunk cut second from the first page. *)
Lemma chunk_text_metadata_witness :
  exists (p : PageData) (i : nat),
    p ∈ motor_pages
    /\ text_splitter processor (page_text p) !! i = Some "Bearing"
    /\ mkMeta (Some "spec.pdf") (Some 1) (Some 1)
       = mkMeta (Some (page_source p)) (Some (page_number p)) (Some (Z.of_nat i)).
Proof.
  apply (chunk_text_metadata processor motor_pages
           (mkChunk "Bearing" (mkMeta (Some "spec.pdf") (Some 1) (Some 1)))).
  apply list_elem_of_In. vm_compute. auto.
Defined.

(** Four pages, two of them without text: pages 1 and 4 come back. *)
Lemma extract_text_from_pdf_pages_witness :
  exists pdf_pages,
    pdfplumber_open "%PDF motor" = Ok pdf_pages
    /\ (forall p,
          p ∈ motor_pages
          <-> exists (i : nat) (t : string),
                pdf_pages !! i = Some (Ok (Some t))
                /\ t <> "" /\ strip t <> ""
                /\ p = mkPage (strip t) (Z.of_nat i + 1) "spec.pdf")
    /\ StronglySorted Z.lt (page_number <$> motor_pages)
    /\ Forall (fun p => page_source p = "spec.pdf"
                        /\ page_text p <> ""
                        /\ 1 <= page_number p <= Z.of_nat (length pdf_pages))
         motor_pages.
Proof.
  apply (extract_text_from_pdf_pages strip pdfplumber_open "%PDF motor" "spec.pdf"
           motor_pages).
  reflexivity.
Defined.


Lemma process_pdf_chunks_witness :
  Forall (fun c => source (metadata c) = Some "spec.pdf"
                   /\ (exists n, page (metadata c) = Some n /\ 1 <= n)
                   /\ exists i, chunk_index (metadata c) = Some i /\ 0 <= i)
    (chunk_text processor motor_pages).
Proof.
  apply (process_pdf_chunks strip pdfplumber_open splitter processor
           "%PDF motor" "spec.pdf" None None).
  reflexivity.
Defined.

(** Two files, none of them indexed. *)
Lemma upload_documents_rejects_with_400_witness :
  400 = 400
  /\ (upload_documents normalize strip pdfplumber_open splitter lower processor
        model uuids rejected_upload stocked).1.2
     = stocked.
Proof.
  apply (upload_documents_rejects_with_400 normalize strip pdfplumber_open
           splitter lower processor model uuids rejected_upload stocked
           (HTTPException 400
              "No documents were successfully processed. Errors: 'notes.txt': Not a PDF file, skipped.; 'torn.pdf': Failed to process PDF 'torn.pdf': bad page")
           _
           (upload_documents normalize strip pdfplumber_open splitter lower
              processor model uuids rejected_upload stocked).2).
  reflexivity.
Defined.

(** Four files, one of them indexed, with three chunks. *)
Lemma upload_documents_counts_witness :
  (1 <= 1 <= length upload)%nat
  /\ (1 <= 3)%nat
  /\ exists extra : list Doc,
       _documents (upload_documents normalize strip pdfplumber_open splitter
                     lower processor model uuids upload stocked).1.2
       = _documents stocked ++ extra
       /\ length extra = 3%nat.
Proof.
  apply (upload_documents_counts normalize strip pdfplumber_open splitter lower
           processor model uuids upload stocked
           (mkDocumentUploadResponse
              "Documents processed successfully (with warnings: 'notes.txt': Not a PDF file, skipped.; 'torn.pdf': Failed to process PDF 'torn.pdf': bad page; 'None': Not a PDF file, skipped.)"
              1 3)
           _
           (upload_documents normalize strip pdfplumber_open splitter lower
              processor model uuids upload stocked).2).
  reflexivity.
Defined.

Lemma upload_documents_then_list_witness :
  list_documents (upload_documents normalize strip pdfplumber_open splitter
                    lower processor model uuids upload empty_store).1.2
  = ["SPEC.PDF"]
  /\ ("SPEC.PDF" ∈ list_documents (@empty_store Z)
      \/ exists file, file ∈ upload /\ filename file = Some "SPEC.PDF").
Proof.
  split; [reflexivity|].
  apply (upload_documents_then_list normalize strip pdfplumber_open splitter
           lower processor model uuids upload empty_store
           (mkDocumentUploadResponse
              "Documents processed successfully (with warnings: 'notes.txt': Not a PDF file, skipped.; 'torn.pdf': Failed to process PDF 'torn.pdf': bad page; 'None': Not a PDF file, skipped.)"
              1 3)
           (upload_documents normalize strip pdfplumber_open splitter lower
              processor model uuids upload empty_store).1.2
           (upload_documents normalize strip pdfplumber_open splitter lower
              processor model uuids upload empty_store).2
           eq_refl "SPEC.PDF").
  apply list_elem_of_In. vm_compute. auto.
Defined.

(** A name the store has, and a name it does not have. *)
Lemma route_delete_document_outcome_witness :
  route_delete_document normalize offline "nope.pdf" stocked
  = (HTTPException 404 ("Document '" +:+ "nope.pdf" +:+ "' not found"), stocked, [])
  /\ (let remaining :=
        filter (fun doc => ~ from_source "spec.pdf" doc) (_documents stocked) in
      let texts := doc_text <$> remaining in
      match route_delete_document normalize model "spec.pdf" stocked with
      | (Respond msg, s', log) =>
          msg = "Document '" +:+ "spec.pdf" +:+ "' deleted successfully"
          /\ _documents s' = remaining
          /\ ("spec.pdf" ∉ list_documents s')
          /\ (remaining = []
              \/ exists embeddings x,
                   embed_texts model texts = Ok embeddings
                   /\ np_array embeddings = Ok x)
      | (HTTPException _ _, _, _) => False
      | (Uncaught e, s', log) =>
          s' = stocked
          /\ remaining <> []
          /\ (embed_texts model texts = Raise e
              \/ exists embeddings,
                   embed_texts model texts = Ok embeddings
                   /\ np_array embeddings = Raise e)
      end).
Proof.
  split.
  - apply (proj1 (route_delete_document_outcome normalize offline "nope.pdf"
                    stocked ltac:(discriminate))).
    intros (doc & Hdoc & Hsrc). revert doc Hdoc Hsrc.
    apply (proj1 (Forall_forall (fun doc => ~ from_source "nope.pdf" doc)
                    (_documents stocked))).
    vm_compute. repeat (apply Forall_cons; split; [discriminate|]).
    apply Forall_nil. exact I.
  - apply (proj2 (route_delete_document_outcome normalize model "spec.pdf"
                    stocked ltac:(discriminate))).
    eexists. split; [apply list_elem_of_here|]. reflexivity.
Defined.

(** Nothing stored, nothing configured, a provider requested. *)
Lemma ask_question_empty_store_witness :
  ask_question normalize flat_search default_settings offline (mkLLMService [])
    ask empty_store
  = (Respond (mkQuestionResponse NO_DOCUMENTS_ANSWER []), empty_store, [], []).
Proof.
  apply (ask_question_empty_store normalize flat_search default_settings offline
           (mkLLMService []) ask empty_store).
  reflexivity.
Defined.

(** The secondary provider answers on the stocked store. *)
Lemma ask_question_references_from_store_witness :
  Forall (fun ref => exists doc, doc ∈ _documents stocked /\ doc_text doc = ref)
    ["The motor draws 5A."; "Bearing"; "Oil"].
Proof.
  apply (ask_question_references_from_store normalize flat_search default_settings
           model (mkLLMService [gemini_down; openai_up])
           (mkQuestionRequest "What is the motor current?" None) stocked
           (mkQuestionResponse "The motor draws 5A."
              ["The motor draws 5A."; "Bearing"; "Oil"])
           stocked
           (ask_question normalize flat_search default_settings model
              (mkLLMService [gemini_down; openai_up])
              (mkQuestionRequest "What is the motor current?" None) stocked).1.2
           (ask_question normalize flat_search default_settings model
              (mkLLMService [gemini_down; openai_up])
              (mkQuestionRequest "What is the motor current?" None) stocked).2).
  reflexivity.
Defined.
